(** * sims3-tracker: the store, the progress service, the goal loader and the
    icon resolver, embedded from [app.py], [db/scripts/db_create.py] and
    [db/scripts/load_lifetime_wishes.py].

    Text is modelled as [string] over 8-bit characters: the goal names, file
    names and column values of the program are ASCII, and on ASCII text the
    Python string methods used by the program ([lower], [replace], [split],
    [strip], [in], [len]) are the functions defined in [PyStr] below.
    Row ids are the integers SQLite hands out (one more than the largest id
    the table has ever held); they are left unbounded, as the program performs
    no arithmetic on them.

    What the program relies on in [sqlite3] is modelled in [Store]: a
    connection works on its own view of the file and publishes it with
    [commit()], and a connection dropped before that loses its changes;
    foreign keys are enforced on a connection only once
    [PRAGMA foreign_keys = ON] has run on it, which no line of the program
    does; text compares byte by byte.  [glob] is the POSIX one, matching case
    and skipping names that start with a dot. *)

From Stdlib Require Import String Ascii List ZArith Bool Lia Arith.
From Stdlib Require Import Permutation Sorting.Sorted.
Import ListNotations.
Open Scope string_scope.

(* ------------------------------------------------------------------ *)
(** ** Python string methods *)

Module PyStr.

(** [c.lower()] on one character: only [A]..[Z] move. *)
Definition lower_char (c : ascii) : ascii :=
  let n := nat_of_ascii c in
  if (65 <=? n)%nat && (n <=? 90)%nat then ascii_of_nat (n + 32) else c.

(** [s.lower()] *)
Fixpoint lower (s : string) : string :=
  match s with
  | EmptyString => EmptyString
  | String c s' => String (lower_char c) (lower s')
  end.

(** [s.replace(old, new)] for a non-empty [old]: scan from the left; where
    [old] starts, emit [new] and jump over [old]; elsewhere copy one
    character.  [skip] counts the characters of a matched [old] still to be
    jumped over. *)
Fixpoint replace_from (old new : string) (skip : nat) (s : string) : string :=
  match s with
  | EmptyString => EmptyString
  | String c s' =>
      match skip with
      | S k => replace_from old new k s'
      | O =>
          if prefix old s
          then new ++ replace_from old new (String.length old - 1) s'
          else String c (replace_from old new 0 s')
      end
  end.

Definition replace (old new s : string) : string := replace_from old new 0 s.

(** [s.split(sep)] for a one-character separator: empty pieces are kept and
    the empty string splits into one empty piece. *)
Fixpoint split (sep : ascii) (s : string) : list string :=
  match s with
  | EmptyString => [EmptyString]
  | String c s' =>
      if Ascii.eqb c sep then EmptyString :: split sep s'
      else match split sep s' with
           | p :: ps => String c p :: ps
           | [] => [String c EmptyString]
           end
  end.

(** [needle in hay] on strings: [needle] starts at some position of [hay]. *)
Fixpoint contains (needle hay : string) : bool :=
  match hay with
  | EmptyString => prefix needle EmptyString
  | String _ hay' => prefix needle hay || contains needle hay'
  end.

(** [x in xs] for a list of strings. *)
Definition mem (x : string) (xs : list string) : bool :=
  existsb (String.eqb x) xs.

(** [c.isspace()] on ASCII: tab, line feed, vertical tab, form feed, carriage
    return, the four separators 28..31 and the space. *)
Definition isspace (c : ascii) : bool :=
  let n := nat_of_ascii c in
  ((9 <=? n)%nat && (n <=? 13)%nat) || ((28 <=? n)%nat && (n <=? 32)%nat).

Fixpoint lstrip (s : string) : string :=
  match s with
  | EmptyString => EmptyString
  | String c s' => if isspace c then lstrip s' else s
  end.

Fixpoint rstrip (s : string) : string :=
  match s with
  | EmptyString => EmptyString
  | String c s' =>
      match rstrip s' with
      | EmptyString => if isspace c then EmptyString else String c EmptyString
      | r => String c r
      end
  end.

(** [s.strip()] *)
Definition strip (s : string) : string := rstrip (lstrip s).

(** [s.endswith(suffix)] *)
Definition endswith (s suffix : string) : bool :=
  let n := String.length suffix in
  String.eqb (substring (String.length s - n) n s) suffix
  && (n <=? String.length s)%nat.

End PyStr.

(* ------------------------------------------------------------------ *)
(** ** The icon resolver ([load_lifetime_wishes.py], [find_icon_file]) *)

Module Icons.
Import PyStr.

(** The one-character string holding the double quote (code 34). *)
Definition double_quote : string := String (ascii_of_nat 34) EmptyString.

(** [clean_name] as it stands after line 24: [lower()] and the six
    one-character [replace] calls. *)
Definition pre_clean (name : string) : string :=
  let clean_name := lower name in
  let clean_name := replace "'" EmptyString clean_name in
  let clean_name := replace double_quote EmptyString clean_name in
  let clean_name := replace "," EmptyString clean_name in
  let clean_name := replace ":" EmptyString clean_name in
  let clean_name := replace "-" "_" clean_name in
  let clean_name := replace " " "_" clean_name in
  clean_name.

(** [clean_name] after line 25. *)
Definition clean (name : string) : string :=
  replace "__" "_" (pre_clean name).

(** [glob.glob(os.path.join(icon_dir, "*.png"))] followed by
    [os.path.basename]: of the names the directory lists, those that end in
    [.png] and do not start with a dot (glob skips hidden files), in listing
    order. *)
Definition glob_png (listing : list string) : list string :=
  filter (fun f => endswith f ".png" && negb (prefix "." f)) listing.

Definition PLACEHOLDER : string := "PLACEHOLDER".

Definition specific_mappings : list (string * string) :=
  [ ("season_traveler", "seasoned_traveler.png");
    ("fashion_phenomenon", "w_lifetime_stylist.png");
    ("paranormal_profiteer", "w_lifetime_ghosthunter.png");
    ("nectar_making", "nectar_making.png") ].

(** [d.get(k)] on a dict written as its list of items. *)
Fixpoint lookup (k : string) (d : list (string * string)) : option string :=
  match d with
  | [] => None
  | (k', v) :: d' => if String.eqb k k' then Some v else lookup k d'
  end.

(** Lines 54-56: the table is consulted, and its answer is used only when the
    mapped file is among the candidates. *)
Definition try_mapping (clean_name : string) (icon_files : list string)
  : option string :=
  match lookup clean_name specific_mappings with
  | Some f => if mem f icon_files then Some f else None
  | None => None
  end.

(** Lines 59-61: [for pattern in patterns_to_try]. *)
Fixpoint try_patterns (patterns icon_files : list string) : option string :=
  match patterns with
  | [] => None
  | pattern :: rest =>
      if mem pattern icon_files then Some pattern
      else try_patterns rest icon_files
  end.

(** Lines 68-70: [for part in name_parts]. *)
Fixpoint try_parts (icon_file icon_base : string) (name_parts : list string)
  : option string :=
  match name_parts with
  | [] => None
  | part :: rest =>
      if (3 <? String.length part)%nat && contains part icon_base
      then Some icon_file
      else try_parts icon_file icon_base rest
  end.

(** Lines 65-70: [for icon_file in icon_files]. *)
Fixpoint try_files (icon_files name_parts : list string) : option string :=
  match icon_files with
  | [] => None
  | icon_file :: rest =>
      let icon_base := replace ".png" EmptyString icon_file in
      match try_parts icon_file icon_base name_parts with
      | Some found => Some found
      | None => try_files rest name_parts
      end
  end.

(** [find_icon_file(name)]; [icon_dir] is [None] when the directory
    [icons/lifetime_wishes] does not exist and otherwise its listing. *)
Definition find_icon_file (icon_dir : option (list string)) (name : string)
  : string :=
  let clean_name := clean name in
  match icon_dir with
  | None => PLACEHOLDER
  | Some listing =>
      let icon_files := glob_png listing in
      let patterns_to_try :=
        [ clean_name ++ ".png";
          "w_lifetime_" ++ clean_name ++ ".png";
          "w_" ++ clean_name ++ ".png" ] in
      match try_mapping clean_name icon_files with
      | Some found => found
      | None =>
          match try_patterns patterns_to_try icon_files with
          | Some found => found
          | None =>
              let name_parts := split "_" clean_name in
              match try_files icon_files name_parts with
              | Some found => found
              | None => PLACEHOLDER
              end
          end
      end
  end.

End Icons.

(* ------------------------------------------------------------------ *)
(** ** The store ([db_create.py]) and sqlite3 connections *)

Module Store.

Open Scope Z_scope.

(** One row of each of the three tables the program uses, column by column
    as [CREATE TABLE] declares them.  A column that may hold NULL is an
    [option]. *)
Record save := mk_save {
  save_id : Z;
  save_name : string;
  save_description : option string;
  save_created_date : string;
  is_active : bool }.

Record lifetime_wish := mk_lifetime_wish {
  lw_id : Z;
  lw_name : string;
  lw_source : string;
  lw_completion_type : string;
  lw_icon_name : option string;
  lw_description : option string;
  lw_created_date : string }.

Record progress_row := mk_progress_row {
  lwp_id : Z;
  lwp_save_id : Z;
  lwp_lifetime_wish_id : Z;
  lwp_completed : bool;
  lwp_completed_date : option string;
  lwp_notes : option string }.

(** The database file: each table in rowid order, with its entry of
    [sqlite_sequence] (the largest id an AUTOINCREMENT table has ever
    held). *)
Record database := mk_database {
  saves : list save;
  saves_seq : Z;
  lifetime_wishes : list lifetime_wish;
  lifetime_wishes_seq : Z;
  lifetime_wishes_progress : list progress_row;
  lifetime_wishes_progress_seq : Z }.

(** A [sqlite3] connection: the file as committed, the connection's own view
    of it (the statements of the open transaction applied), and the
    [foreign_keys] pragma of the connection. *)
Record connection := mk_connection {
  file : database;
  txn : database;
  foreign_keys : bool }.

(** [sqlite3.connect(...)]: SQLite leaves foreign-key enforcement off on a new
    connection until [PRAGMA foreign_keys = ON] is run on it. *)
Definition connect (db : database) : connection :=
  {| file := db; txn := db; foreign_keys := false |}.

Inductive exn :=
| IntegrityError (constraint : string)
| KeyError (key : string)
| AttributeError.

Inductive outcome (A : Type) :=
| Returned (a : A)
| Raised (e : exn).
Arguments Returned {A} a.
Arguments Raised {A} e.

(** Code that runs on a connection and either returns or raises. *)
Definition sql (A : Type) : Type := connection -> outcome A * connection.

Definition ret {A} (a : A) : sql A := fun c => (Returned a, c).

Definition bind {A B} (m : sql A) (k : A -> sql B) : sql B :=
  fun c =>
    match m c with
    | (Returned a, c') => k a c'
    | (Raised e, c') => (Raised e, c')
    end.

Definition raise {A} (e : exn) : sql A := fun c => (Raised e, c).

Definition view : sql database := fun c => (Returned (txn c), c).

Definition write (db : database) : sql unit :=
  fun c => (Returned tt,
            {| file := file c; txn := db; foreign_keys := foreign_keys c |}).

Definition pragma_foreign_keys : sql bool :=
  fun c => (Returned (foreign_keys c), c).

(** [conn.commit()] *)
Definition commit : sql unit :=
  fun c => (Returned tt,
            {| file := txn c; txn := txn c; foreign_keys := foreign_keys c |}).

Notation "x <- m ;; k" := (bind m (fun x => k))
  (at level 61, m at next level, right associativity).
Notation "m ;; k" := (bind m (fun _ => k))
  (at level 61, right associativity).

(** A function of the program that opens its own connection, run on the
    database file: what the file holds afterwards is what was committed; the
    view of a connection that is dropped with an open transaction is lost. *)
Definition on_file {A} (body : sql A) (db : database) : outcome A * database :=
  let (r, c) := body (connect db) in (r, file c).

(** The id an AUTOINCREMENT table gives its next row. *)
Definition max_id (ids : list Z) : Z := fold_right Z.max 0 ids.

Definition next_id (seq : Z) (ids : list Z) : Z := Z.max seq (max_id ids) + 1.

(** What the program reads from outside the database: the clock (as
    [datetime.now().strftime('%Y-%m-%d')] and as SQLite's [CURRENT_DATE]), the
    rows [csv.DictReader] yields for [data/lifetime_wishes.csv] ([None] when
    the file does not exist), and the listing of [icons/lifetime_wishes]. *)
Definition csv_row : Type := list (string * option string).

Record world := mk_world {
  today : string;
  current_date : string;
  csv_file : option (list csv_row);
  icon_dir : option (list string) }.

(** [create_database()] on a new file. *)
Definition create_database (w : world) : database :=
  {| saves := [ {| save_id := 1;
                   save_name := "My Main Save";
                   save_description :=
                     Some "Default save file for tracking progress";
                   save_created_date := current_date w;
                   is_active := true |} ];
     saves_seq := 1;
     lifetime_wishes := [];
     lifetime_wishes_seq := 0;
     lifetime_wishes_progress := [];
     lifetime_wishes_progress_seq := 0 |}.

(** *** Statements *)

Definition with_saves (db : database) (l : list save) (seq : Z) : database :=
  {| saves := l; saves_seq := seq;
     lifetime_wishes := lifetime_wishes db;
     lifetime_wishes_seq := lifetime_wishes_seq db;
     lifetime_wishes_progress := lifetime_wishes_progress db;
     lifetime_wishes_progress_seq := lifetime_wishes_progress_seq db |}.

Definition with_lifetime_wishes (db : database) (l : list lifetime_wish)
  (seq : Z) : database :=
  {| saves := saves db; saves_seq := saves_seq db;
     lifetime_wishes := l;
     lifetime_wishes_seq := seq;
     lifetime_wishes_progress := lifetime_wishes_progress db;
     lifetime_wishes_progress_seq := lifetime_wishes_progress_seq db |}.

Definition with_progress (db : database) (l : list progress_row) (seq : Z)
  : database :=
  {| saves := saves db; saves_seq := saves_seq db;
     lifetime_wishes := lifetime_wishes db;
     lifetime_wishes_seq := lifetime_wishes_seq db;
     lifetime_wishes_progress := l;
     lifetime_wishes_progress_seq := seq |}.

Definition mem_Z (x : Z) (l : list Z) : bool := existsb (Z.eqb x) l.

(** [INSERT INTO saves (name, description) VALUES (?, ?)]: [name] is UNIQUE;
    [created_date] and [is_active] take their defaults. *)
Definition insert_save (w : world) (name description : string) : sql unit :=
  db <- view ;;
  if existsb (fun s => String.eqb (save_name s) name) (saves db)
  then raise (IntegrityError "UNIQUE constraint failed: saves.name")
  else
    let id := next_id (saves_seq db) (map save_id (saves db)) in
    write (with_saves db
             (saves db ++ [ {| save_id := id;
                               save_name := name;
                               save_description := Some description;
                               save_created_date := current_date w;
                               is_active := false |} ])
             id).

(** [UPDATE saves SET is_active = 0] *)
Definition set_is_active (b : bool) (s : save) : save :=
  {| save_id := save_id s; save_name := save_name s;
     save_description := save_description s;
     save_created_date := save_created_date s;
     is_active := b |}.

Definition update_saves_inactive : sql unit :=
  db <- view ;;
  write (with_saves db (map (set_is_active false) (saves db)) (saves_seq db)).

(** [UPDATE saves SET is_active = 1 WHERE id = ?] *)
Definition update_save_active (id : Z) : sql unit :=
  db <- view ;;
  write (with_saves db
           (map (fun s => if save_id s =? id then set_is_active true s else s)
                (saves db))
           (saves_seq db)).

(** [DELETE FROM lifetime_wishes]: with foreign keys enforced, the rows of
    [lifetime_wishes_progress] that reference a deleted row go with it
    (ON DELETE CASCADE); without, they stay. *)
Definition delete_lifetime_wishes : sql unit :=
  db <- view ;;
  fk <- pragma_foreign_keys ;;
  let gone := map lw_id (lifetime_wishes db) in
  let kept :=
    if fk
    then filter (fun p => negb (mem_Z (lwp_lifetime_wish_id p) gone))
                (lifetime_wishes_progress db)
    else lifetime_wishes_progress db in
  write (with_lifetime_wishes
           (with_progress db kept (lifetime_wishes_progress_seq db))
           [] (lifetime_wishes_seq db)).

(** [INSERT INTO lifetime_wishes (name, source, completion_type, icon_name)
    VALUES (?, ?, ?, ?)] *)
Definition insert_lifetime_wish (w : world)
  (name source completion_type icon_name : string) : sql unit :=
  db <- view ;;
  let id := next_id (lifetime_wishes_seq db)
                    (map lw_id (lifetime_wishes db)) in
  write (with_lifetime_wishes db
           (lifetime_wishes db ++ [ {| lw_id := id;
                                       lw_name := name;
                                       lw_source := source;
                                       lw_completion_type := completion_type;
                                       lw_icon_name := Some icon_name;
                                       lw_description := None;
                                       lw_created_date := current_date w |} ])
           id).

(** [INSERT OR REPLACE INTO lifetime_wishes_progress (save_id,
    lifetime_wish_id, completed, completed_date, notes) VALUES (?,?,?,?,?)]:
    the rows that would break UNIQUE(save_id, lifetime_wish_id) are deleted,
    then the new row is inserted under a new id.  With foreign keys enforced
    both parents must exist. *)
Definition same_pair (save_id lifetime_wish_id : Z) (p : progress_row) : bool :=
  (lwp_save_id p =? save_id) && (lwp_lifetime_wish_id p =? lifetime_wish_id).

Definition insert_or_replace_progress (save_id lifetime_wish_id : Z)
  (completed : bool) (completed_date : option string) (notes : string)
  : sql unit :=
  db <- view ;;
  fk <- pragma_foreign_keys ;;
  if fk && negb (mem_Z save_id (map Store.save_id (saves db))
                 && mem_Z lifetime_wish_id (map lw_id (lifetime_wishes db)))
  then raise (IntegrityError "FOREIGN KEY constraint failed")
  else
    let id := next_id (lifetime_wishes_progress_seq db)
                      (map lwp_id (lifetime_wishes_progress db)) in
    write (with_progress db
             (filter (fun p => negb (same_pair save_id lifetime_wish_id p))
                     (lifetime_wishes_progress db)
              ++ [ {| lwp_id := id;
                      lwp_save_id := save_id;
                      lwp_lifetime_wish_id := lifetime_wish_id;
                      lwp_completed := completed;
                      lwp_completed_date := completed_date;
                      lwp_notes := Some notes |} ])
             id).

End Store.

(* ------------------------------------------------------------------ *)
(** ** The progress service ([app.py]) *)

Module App.
Import Store.
Open Scope Z_scope.

(** [get_active_save()]: [SELECT * FROM saves WHERE is_active = 1 LIMIT 1],
    of which the id, the name and the description are returned. *)
Definition get_active_save (db : database)
  : option (Z * string * option string) :=
  match filter is_active (saves db) with
  | s :: _ => Some (save_id s, save_name s, save_description s)
  | [] => None
  end.

(** A row of the result of [get_lifetime_wishes_with_progress]. *)
Record wish_with_progress := mk_wish_with_progress {
  r_id : Z;
  r_name : string;
  r_source : string;
  r_completion_type : string;
  r_icon_name : option string;
  r_completed : bool;
  r_completed_date : option string;
  r_notes : option string }.

(** [lifetime_wishes lw LEFT JOIN lifetime_wishes_progress lwp ON lw.id =
    lwp.lifetime_wish_id AND lwp.save_id = ?]: every row of the left table,
    once per matching row of the right one, and once with no right row when
    none matches. *)
Definition join_on (save_id : Z) (lw : lifetime_wish) (lwp : progress_row)
  : bool :=
  (lw_id lw =? lwp_lifetime_wish_id lwp) && (lwp_save_id lwp =? save_id).

Definition left_join (save_id : Z) (db : database)
  : list (lifetime_wish * option progress_row) :=
  flat_map
    (fun lw =>
       match filter (join_on save_id lw) (lifetime_wishes_progress db) with
       | [] => [(lw, None)]
       | matches => map (fun lwp => (lw, Some lwp)) matches
       end)
    (lifetime_wishes db).

(** [ORDER BY lw.source, lw.name]: text compares byte by byte. *)
Definition source_name_le (a b : lifetime_wish * option progress_row) : bool :=
  match String.compare (lw_source (fst a)) (lw_source (fst b)) with
  | Lt => true
  | Gt => false
  | Eq => String.leb (lw_name (fst a)) (lw_name (fst b))
  end.

Fixpoint insert_by {A} (le : A -> A -> bool) (x : A) (l : list A) : list A :=
  match l with
  | [] => [x]
  | y :: l' => if le x y then x :: l else y :: insert_by le x l'
  end.

Definition order_by {A} (le : A -> A -> bool) (l : list A) : list A :=
  fold_right (insert_by le) [] l.

(** The select list; [COALESCE(lwp.completed, 0)] is the only column given a
    default. *)
Definition select_columns (j : lifetime_wish * option progress_row)
  : wish_with_progress :=
  let (lw, lwp) := j in
  {| r_id := lw_id lw;
     r_name := lw_name lw;
     r_source := lw_source lw;
     r_completion_type := lw_completion_type lw;
     r_icon_name := lw_icon_name lw;
     r_completed := match lwp with
                    | Some p => lwp_completed p
                    | None => false
                    end;
     r_completed_date := match lwp with
                         | Some p => lwp_completed_date p
                         | None => None
                         end;
     r_notes := match lwp with
                | Some p => lwp_notes p
                | None => None
                end |}.

Definition get_lifetime_wishes_with_progress (save_id : Z) (db : database)
  : list wish_with_progress :=
  map select_columns (order_by source_name_le (left_join save_id db)).

(** [update_lifetime_wish_progress(save_id, lifetime_wish_id, completed,
    notes="")]: [notes] is [None] when the caller leaves the argument out. *)
Definition update_lifetime_wish_progress (w : world)
  (save_id lifetime_wish_id : Z) (completed : bool) (notes : option string)
  : database -> outcome unit * database :=
  on_file
    (let notes := match notes with
                  | Some n => n
                  | None => EmptyString
                  end in
     let completed_date := if completed then Some (today w) else None in
     insert_or_replace_progress save_id lifetime_wish_id completed
       completed_date notes ;;
     commit).

(** [create_new_save(name, description="")] *)
Definition create_new_save (w : world) (name description : string)
  : database -> outcome unit * database :=
  on_file (insert_save w name description ;; commit).

(** [set_active_save(save_id)] *)
Definition set_active_save (save_id : Z)
  : database -> outcome unit * database :=
  on_file (update_saves_inactive ;; update_save_active save_id ;; commit).

(** [main], lines 274-283: the completion checkbox of one wish. *)
Definition checkbox_changed (w : world) (active_save_id : Z)
  (wish : wish_with_progress) (completed : bool) (db : database)
  : outcome unit * database :=
  if negb (Bool.eqb completed (r_completed wish))
  then update_lifetime_wish_progress w active_save_id (r_id wish)
         completed None db
  else (Returned tt, db).

(** [main], lines 296-310: the notes field of one wish; [wish['notes'] or ""]
    reads a NULL as the empty text. *)
Definition notes_or_empty (wish : wish_with_progress) : string :=
  match r_notes wish with
  | Some n => n
  | None => EmptyString
  end.

Definition notes_changed (w : world) (active_save_id : Z)
  (wish : wish_with_progress) (notes : string) (db : database)
  : outcome unit * database :=
  if negb (String.eqb notes (notes_or_empty wish))
  then update_lifetime_wish_progress w active_save_id (r_id wish)
         (r_completed wish) (Some notes) db
  else (Returned tt, db).

End App.

(* ------------------------------------------------------------------ *)
(** ** The goal loader ([load_lifetime_wishes.py]) *)

Module Loader.
Import Store.

(** [row[key]] on a row of [csv.DictReader]: a column the header does not
    have raises [KeyError]; a column the line is too short for holds
    [None]. *)
Fixpoint getitem (row : csv_row) (key : string) : sql (option string) :=
  match row with
  | [] => raise (KeyError key)
  | (k, v) :: row' => if String.eqb k key then ret v else getitem row' key
  end.

(** [v.strip()], which a [None] does not have. *)
Definition strip_value (v : option string) : sql string :=
  match v with
  | Some s => ret (PyStr.strip s)
  | None => raise AttributeError
  end.

Record counts := mk_counts {
  loaded_count : nat;
  icon_count : nat;
  placeholder_count : nat }.

(** Lines 96-114, the body of [for row in reader] and the loop. *)
Definition load_row (w : world) (row : csv_row) (n : counts) : sql counts :=
  v <- getitem row "Name" ;;
  name <- strip_value v ;;
  v <- getitem row "Source" ;;
  source <- strip_value v ;;
  v <- getitem row "Completion_Type" ;;
  completion_type <- strip_value v ;;
  let icon_name := Icons.find_icon_file (icon_dir w) name in
  let found := negb (String.eqb icon_name Icons.PLACEHOLDER) in
  insert_lifetime_wish w name source completion_type icon_name ;;
  ret {| loaded_count := S (loaded_count n);
         icon_count := if found then S (icon_count n) else icon_count n;
         placeholder_count :=
           if found then placeholder_count n else S (placeholder_count n) |}.

Fixpoint load_rows (w : world) (rows : list csv_row) (n : counts)
  : sql counts :=
  match rows with
  | [] => ret n
  | row :: rest => n' <- load_row w row n ;; load_rows w rest n'
  end.

(** [load_lifetime_wishes()] on its connection, up to the commit; the result
    is the three counts the function prints, or [None] when it prints the
    error and returns.  The queries that follow the commit only read. *)
Definition load_lifetime_wishes_on_connection (w : world)
  : sql (option counts) :=
  delete_lifetime_wishes ;;
  match csv_file w with
  | None => ret None
  | Some rows =>
      n <- load_rows w rows
             {| loaded_count := 0; icon_count := 0; placeholder_count := 0 |} ;;
      commit ;;
      ret (Some n)
  end.

Definition load_lifetime_wishes (w : world)
  : database -> outcome (option counts) * database :=
  on_file (load_lifetime_wishes_on_connection w).

End Loader.

(* ------------------------------------------------------------------ *)
(** ** Sequences of operations *)

Module Session.
Import Store.

Inductive request :=
| CreateSave (name description : string)
| ActivateSave (save_id : Z)
| UpsertProgress (save_id lifetime_wish_id : Z) (completed : bool)
                 (notes : option string)
| LoadGoals.

(** One request served in world [w]; a request that raises leaves the file
    as it returns it. *)
Definition serve (w : world) (r : request) (db : database) : database :=
  match r with
  | CreateSave name description =>
      snd (App.create_new_save w name description db)
  | ActivateSave id => snd (App.set_active_save id db)
  | UpsertProgress s g completed notes =>
      snd (App.update_lifetime_wish_progress w s g completed notes db)
  | LoadGoals => snd (Loader.load_lifetime_wishes w db)
  end.

Fixpoint serve_all (rs : list (world * request)) (db : database) : database :=
  match rs with
  | [] => db
  | (w, r) :: rs' => serve_all rs' (serve w r db)
  end.

End Session.

(* ------------------------------------------------------------------ *)
(** ** The rest of [app.py]: listing the saves, the export, the overview *)

Module Dashboard.
Import Store App.
Open Scope Z_scope.

(** [ORDER BY is_active DESC, name]: the active saves first, then by name. *)
Definition active_then_name_le (a b : save) : bool :=
  match is_active a, is_active b with
  | true, false => true
  | false, true => false
  | _, _ => String.leb (save_name a) (save_name b)
  end.

(** [get_saves()] *)
Definition get_saves (db : database) : list save :=
  order_by active_then_name_le (saves db).

(** A row of the third query of [export_all_data]. *)
Record progress_report_row := mk_progress_report_row {
  x_save_name : string;
  x_lifetime_wish_name : string;
  x_source : string;
  x_completed : bool;
  x_completed_date : option string;
  x_notes : option string }.

(** [lifetime_wishes_progress lwp JOIN saves s ON lwp.save_id = s.id JOIN
    lifetime_wishes lw ON lwp.lifetime_wish_id = lw.id]: a progress row comes
    out once for every save and wish it names, and not at all when one of the
    two is missing. *)
Definition progress_report (db : database) : list progress_report_row :=
  flat_map
    (fun lwp =>
       flat_map
         (fun s =>
            flat_map
              (fun lw =>
                 {| x_save_name := save_name s;
                    x_lifetime_wish_name := lw_name lw;
                    x_source := lw_source lw;
                    x_completed := lwp_completed lwp;
                    x_completed_date := lwp_completed_date lwp;
                    x_notes := lwp_notes lwp |} :: nil)
              (filter (fun lw => lwp_lifetime_wish_id lwp =? lw_id lw)
                      (lifetime_wishes db)))
         (filter (fun s => lwp_save_id lwp =? save_id s) (saves db)))
    (lifetime_wishes_progress db).

(** [export_all_data()], up to the writing of the workbook: the three
    sheets. *)
Definition export_all_data (db : database)
  : list save * list lifetime_wish * list progress_report_row :=
  (saves db, lifetime_wishes db, progress_report db).

(** [main], lines 168-169: the two counts of the overview. *)
Definition total_wishes (df : list wish_with_progress) : nat := length df.

Definition completed_wishes (df : list wish_with_progress) : nat :=
  length (filter r_completed df).

(** [main], lines 253-260: the two filters of the wishes tab. *)
Definition apply_filters (source_filter status_filter : string)
  (df : list wish_with_progress) : list wish_with_progress :=
  let filtered_df := df in
  let filtered_df :=
    if negb (String.eqb source_filter "All")
    then filter (fun r => String.eqb (r_source r) source_filter) filtered_df
    else filtered_df in
  if String.eqb status_filter "Completed"
  then filter r_completed filtered_df
  else if String.eqb status_filter "Not Completed"
  then filter (fun r => negb (r_completed r)) filtered_df
  else filtered_df.

End Dashboard.

(* ------------------------------------------------------------------ *)
(** ** [create_database()] statement by statement

    The script runs on whatever [db/sims3_tracker.db] holds.  DROP TABLE and
    CREATE TABLE are not preceded by an implicit BEGIN, so each takes effect
    on the file as it runs; the one INSERT is committed by the [commit()] that
    follows it. *)

Module Schema.
Import Store.
Open Scope Z_scope.

Inductive script_error :=
| OperationalError (message : string)
| ConstraintError (message : string).

Inductive ran (A : Type) :=
| Done (a : A)
| Failed (e : script_error).
Arguments Done {A} a.
Arguments Failed {A} e.

(** The database file: the tables and the indexes it has, by name (an index
    with the table it is on), and the rows of the three tables of the
    tracker. *)
Record db_file := mk_db_file {
  tables : list string;
  indexes : list (string * string);
  rows : database }.

Definition script (A : Type) : Type := db_file -> ran A * db_file.

Definition and_then {A B} (m : script A) (k : A -> script B) : script B :=
  fun f =>
    match m f with
    | (Done a, f') => k a f'
    | (Failed e, f') => (Failed e, f')
    end.

Notation "m ;;; k" := (and_then m (fun _ => k))
  (at level 61, right associativity).

Definition has_table (t : string) (f : db_file) : bool :=
  existsb (String.eqb t) (tables f).

(** The rows of a dropped table go, and with them its entry in
    [sqlite_sequence]. *)
Definition forget (t : string) (db : database) : database :=
  if String.eqb t "saves" then with_saves db [] 0
  else if String.eqb t "lifetime_wishes" then with_lifetime_wishes db [] 0
  else if String.eqb t "lifetime_wishes_progress" then with_progress db [] 0
  else db.

(** [DROP TABLE IF EXISTS t]; the indexes on the table go with it.  The
    connection does not enforce foreign keys, so no other table is touched. *)
Definition drop_table_if_exists (t : string) : script unit :=
  fun f =>
    if has_table t f
    then (Done tt,
          {| tables := filter (fun x => negb (String.eqb x t)) (tables f);
             indexes := filter (fun i => negb (String.eqb (snd i) t))
                               (indexes f);
             rows := forget t (rows f) |})
    else (Done tt, f).

(** [CREATE TABLE t (...)] *)
Definition create_table (t : string) : script unit :=
  fun f =>
    if has_table t f
    then (Failed (OperationalError ("table " ++ t ++ " already exists")), f)
    else (Done tt,
          {| tables := tables f ++ [t];
             indexes := indexes f;
             rows := rows f |}).

(** [CREATE INDEX i ON t(...)] *)
Definition create_index (i t : string) : script unit :=
  fun f =>
    if existsb (fun x => String.eqb (fst x) i) (indexes f)
    then (Failed (OperationalError ("index " ++ i ++ " already exists")), f)
    else if has_table t f
    then (Done tt,
          {| tables := tables f;
             indexes := indexes f ++ [(i, t)];
             rows := rows f |})
    else (Failed (OperationalError ("no such table: main." ++ t)), f).

(** [INSERT INTO saves (name, description, is_active) VALUES ('My Main
    Save', 'Default save file for tracking progress', 1)] and the commit. *)
Definition insert_default_save (w : world) : script unit :=
  fun f =>
    let db := rows f in
    if existsb (fun s => String.eqb (save_name s) "My Main Save") (saves db)
    then (Failed (ConstraintError "UNIQUE constraint failed: saves.name"), f)
    else
      let id := next_id (saves_seq db) (map save_id (saves db)) in
      (Done tt,
       {| tables := tables f;
          indexes := indexes f;
          rows :=
            with_saves db
              (saves db
               ++ [ {| save_id := id;
                       save_name := "My Main Save";
                       save_description :=
                         Some "Default save file for tracking progress";
                       save_created_date := current_date w;
                       is_active := true |} ])
              id |}).

Definition tables_to_drop : list string :=
  [ "categories"; "goals"; "saves"; "progress";
    "lifetime_wishes"; "collections"; "skills"; "careers" ].

(** Lines 29-30: [for table in tables_to_drop]. *)
Fixpoint drop_tables (ts : list string) : script unit :=
  match ts with
  | [] => fun f => (Done tt, f)
  | t :: ts' => drop_table_if_exists t ;;; drop_tables ts'
  end.

(** [create_database()] *)
Definition create_database (w : world) : script unit :=
  drop_tables tables_to_drop ;;;
  create_table "saves" ;;;
  create_table "lifetime_wishes" ;;;
  create_table "lifetime_wishes_progress" ;;;
  create_table "collections" ;;;
  create_table "collections_progress" ;;;
  create_table "skills" ;;;
  create_table "skills_progress" ;;;
  create_table "careers" ;;;
  create_table "careers_progress" ;;;
  create_index "idx_lifetime_wishes_source" "lifetime_wishes" ;;;
  create_index "idx_lifetime_wishes_progress_save"
               "lifetime_wishes_progress" ;;;
  create_index "idx_collections_progress_save" "collections_progress" ;;;
  create_index "idx_skills_progress_save" "skills_progress" ;;;
  create_index "idx_careers_progress_save" "careers_progress" ;;;
  insert_default_save w.

(** A file that does not exist yet: [sqlite3.connect] creates it empty. *)
Definition new_file : db_file :=
  {| tables := [];
     indexes := [];
     rows := {| saves := []; saves_seq := 0;
                lifetime_wishes := []; lifetime_wishes_seq := 0;
                lifetime_wishes_progress := [];
                lifetime_wishes_progress_seq := 0 |} |}.

End Schema.

(* ------------------------------------------------------------------ *)
(** ** Notions the properties are stated with *)

Module IconSpec.
Import PyStr Icons.

(** What normalization makes of one character: the lowercase letter, nothing
    for an apostrophe, a double quote, a comma or a colon, an underscore for
    a hyphen or a space. *)
Definition clean_char (c : ascii) : string :=
  let l := lower_char c in
  if Ascii.eqb l "'" || Ascii.eqb l (ascii_of_nat 34)
     || Ascii.eqb l "," || Ascii.eqb l ":"
  then EmptyString
  else if Ascii.eqb l "-" || Ascii.eqb l " "
  then "_"
  else String l EmptyString.

Fixpoint concat_map (f : ascii -> string) (s : string) : string :=
  match s with
  | EmptyString => EmptyString
  | String c s' => f c ++ concat_map f s'
  end.

(** One pass over the text that turns each pair of underscores it meets into
    one underscore and moves on behind the pair. *)
Fixpoint halve_pairs (s : string) : string :=
  match s with
  | EmptyString => EmptyString
  | String c s' =>
      match s' with
      | EmptyString => s
      | String d s'' =>
          if Ascii.eqb c "_" && Ascii.eqb d "_"
          then String "_" (halve_pairs s'')
          else String c (halve_pairs s')
      end
  end.

(** Whether a candidate's base name contains a part of the normalized name
    that is longer than three characters; [base] reads the base name off the
    file name. *)
Definition significant_part_in (base : string -> string)
  (name_parts : list string) (candidate : string) : bool :=
  existsb (fun part => (3 <? String.length part)%nat
                       && contains part (base candidate))
          name_parts.

(** Steps 3 to 5 of the specification's algorithm: the first of the three
    generated names that is a candidate; failing that the first candidate, in
    listing order, with a significant part in its base name; failing that the
    sentinel. *)
Definition spec_generated_or_partial (base : string -> string)
  (candidates : list string) (n : string) : string :=
  match find (fun p => mem p candidates)
             [ n ++ ".png"; "w_lifetime_" ++ n ++ ".png"; "w_" ++ n ++ ".png" ]
  with
  | Some p => p
  | None =>
      match find (significant_part_in base (split "_" n)) candidates with
      | Some f => f
      | None => PLACEHOLDER
      end
  end.

(** The resolver as the specification words it: the table first, its entry
    returned when the normalized name is a key and the mapped file is a
    candidate; otherwise steps 3 to 5. *)
Definition spec_find_icon_file (base : string -> string)
  (candidates : list string) (name : string) : string :=
  let n := clean name in
  match lookup n specific_mappings with
  | Some f =>
      if mem f candidates then f
      else spec_generated_or_partial base candidates n
  | None => spec_generated_or_partial base candidates n
  end.

(** The file name without its extension [.png]. *)
Definition without_extension (f : string) : string :=
  substring 0 (String.length f - 4) f.

(** The file name with every [.png] in it taken out, as line 66 computes
    [icon_base]. *)
Definition without_any_png (f : string) : string :=
  replace ".png" EmptyString f.

End IconSpec.

Module StoreSpec.
Import Store App Loader.
Open Scope Z_scope.

(** The row an upsert writes. *)
Definition written_row (w : world) (db : database)
  (save_id lifetime_wish_id : Z) (completed : bool) (notes : option string)
  : progress_row :=
  {| lwp_id := next_id (lifetime_wishes_progress_seq db)
                       (map lwp_id (lifetime_wishes_progress db));
     lwp_save_id := save_id;
     lwp_lifetime_wish_id := lifetime_wish_id;
     lwp_completed := completed;
     lwp_completed_date := if completed then Some (today w) else None;
     lwp_notes := Some match notes with
                       | Some n => n
                       | None => EmptyString
                       end |}.

(** The rows of the progress table that belong to one (save, wish) pair. *)
Definition rows_of (save_id lifetime_wish_id : Z) (db : database)
  : list progress_row :=
  filter (same_pair save_id lifetime_wish_id) (lifetime_wishes_progress db).

Definition pair_of (p : progress_row) : Z * Z :=
  (lwp_save_id p, lwp_lifetime_wish_id p).

(** What [row[key]] evaluates to, apart from the connection. *)
Fixpoint item (row : csv_row) (key : string) : outcome (option string) :=
  match row with
  | [] => Raised (KeyError key)
  | (k, v) :: row' => if String.eqb k key then Returned v else item row' key
  end.

(** A row that gives text for the three columns the loader reads. *)
Definition has_text (row : csv_row) (key : string) : bool :=
  match item row key with
  | Returned (Some _) => true
  | _ => false
  end.

Definition well_formed (row : csv_row) : bool :=
  has_text row "Name" && has_text row "Source"
  && has_text row "Completion_Type".

(** Two connections that differ at most in the wishes of the open
    transaction. *)
Definition same_but_wishes (c c' : connection) : Prop :=
  file c' = file c
  /\ foreign_keys c' = foreign_keys c
  /\ saves (txn c') = saves (txn c)
  /\ saves_seq (txn c') = saves_seq (txn c)
  /\ lifetime_wishes_progress (txn c') = lifetime_wishes_progress (txn c)
  /\ lifetime_wishes_progress_seq (txn c') =
     lifetime_wishes_progress_seq (txn c).

(** The connection once [DELETE FROM lifetime_wishes] has run on it. *)
Definition after_delete (db : database) : connection :=
  snd (delete_lifetime_wishes (connect db)).

Definition no_counts : counts :=
  {| loaded_count := 0; icon_count := 0; placeholder_count := 0 |}.

Definition active_count (db : database) : nat :=
  length (filter is_active (saves db)).

Definition named (name : string) (s : save) : bool :=
  String.eqb (save_name s) name.

(** The save [create_new_save] inserts. *)
Definition new_save (w : world) (db : database) (name description : string)
  : save :=
  {| save_id := next_id (saves_seq db) (map save_id (saves db));
     save_name := name;
     save_description := Some description;
     save_created_date := current_date w;
     is_active := false |}.

(** What the schema and the activation procedure keep true of a store. *)
Record consistent (db : database) : Prop := {
  ids_unique : NoDup (map save_id (saves db));
  names_unique : NoDup (map save_name (saves db));
  pairs_unique : NoDup (map pair_of (lifetime_wishes_progress db));
  one_active : (active_count db <= 1)%nat }.

(** The columns of a wish the query selects. *)
Definition wish_columns (lw : lifetime_wish)
  : Z * string * string * string * option string :=
  (lw_id lw, lw_name lw, lw_source lw, lw_completion_type lw, lw_icon_name lw).

Definition row_wish_columns (r : wish_with_progress)
  : Z * string * string * string * option string :=
  (r_id r, r_name r, r_source r, r_completion_type r, r_icon_name r).

(** "By source, then by name": an earlier source, or the same source and a
    name that is not later. *)
Definition by_source_then_name (r1 r2 : wish_with_progress) : Prop :=
  String.ltb (r_source r1) (r_source r2) = true
  \/ (r_source r1 = r_source r2
      /\ String.leb (r_name r1) (r_name r2) = true).

End StoreSpec.

(** Sample stores and worlds. *)
Module Samples.
Import Store App.
Open Scope Z_scope.

(** A store where save 1 has completed wish 7 on 2024-01-01 with a note. *)
Definition noted_db : database :=
  {| saves := []; saves_seq := 1;
     lifetime_wishes := []; lifetime_wishes_seq := 7;
     lifetime_wishes_progress :=
       [ mk_progress_row 3 1 7 true (Some "2024-01-01") (Some "gold") ];
     lifetime_wishes_progress_seq := 3 |}.

Definition noted_wish : wish_with_progress :=
  {| r_id := 7; r_name := "Master Chef"; r_source := "Base Game";
     r_completion_type := "Checkmark"; r_icon_name := Some "PLACEHOLDER";
     r_completed := true; r_completed_date := Some "2024-01-01";
     r_notes := Some "gold" |}.

(** A store with one wish, completed by save 1, and a goal file of one
    row. *)
Definition tracked_db : database :=
  {| saves := [ mk_save 1 "My Main Save" None "2024-01-01" true ];
     saves_seq := 1;
     lifetime_wishes :=
       [ mk_lifetime_wish 1 "Master Chef" "Base Game" "Checkmark"
           (Some "PLACEHOLDER") None "2024-01-01" ];
     lifetime_wishes_seq := 1;
     lifetime_wishes_progress :=
       [ mk_progress_row 1 1 1 true (Some "2024-01-05") (Some "done") ];
     lifetime_wishes_progress_seq := 1 |}.

Definition one_row_world : world :=
  {| today := "2024-02-02"; current_date := "2024-02-02";
     csv_file := Some [ [ ("Name", Some "Master Chef");
                          ("Source", Some "Base Game");
                          ("Completion_Type", Some "Checkmark") ] ];
     icon_dir := None |}.

Definition no_file_world : world :=
  {| today := "2024-02-02"; current_date := "2024-02-02";
     csv_file := None; icon_dir := None |}.

Definition alpha_db : database :=
  snd (create_new_save no_file_world "Alpha" "first"
         (create_database no_file_world)).

End Samples.

(** Notions for the properties of the code beside the claims. *)
Module MoreSpec.
Import Store App Loader Dashboard StoreSpec.
Open Scope Z_scope.

(** What a save shows of itself through [get_active_save]. *)
Definition shown (s : save) : Z * string * option string :=
  (save_id s, save_name s, save_description s).

(** "Active first, then by name". *)
Definition listed_before (a b : save) : Prop :=
  (is_active a = true /\ is_active b = false)
  \/ (is_active a = is_active b
      /\ String.leb (save_name a) (save_name b) = true).

(** A listing row with the progress columns of wish [g] replaced. *)
Definition set_progress (g : Z) (completed : bool)
  (completed_date notes : option string) (r : wish_with_progress)
  : wish_with_progress :=
  if r_id r =? g
  then {| r_id := r_id r;
          r_name := r_name r;
          r_source := r_source r;
          r_completion_type := r_completion_type r;
          r_icon_name := r_icon_name r;
          r_completed := completed;
          r_completed_date := completed_date;
          r_notes := notes |}
  else r.

(** The text a well-formed row gives for a column, stripped. *)
Definition text_of (row : csv_row) (key : string) : string :=
  match item row key with
  | Returned (Some s) => PyStr.strip s
  | _ => EmptyString
  end.

(** The wish a row of the goal file becomes under id [id]. *)
Definition wish_of_row (w : world) (id : Z) (row : csv_row) : lifetime_wish :=
  {| lw_id := id;
     lw_name := text_of row "Name";
     lw_source := text_of row "Source";
     lw_completion_type := text_of row "Completion_Type";
     lw_icon_name :=
       Some (Icons.find_icon_file (icon_dir w) (text_of row "Name"));
     lw_description := None;
     lw_created_date := current_date w |}.

Fixpoint wishes_of_rows (w : world) (id : Z) (rows : list csv_row)
  : list lifetime_wish :=
  match rows with
  | [] => []
  | row :: rest => wish_of_row w id row :: wishes_of_rows w (id + 1) rest
  end.

(** Whether a stored wish has an icon of its own. *)
Definition has_icon (lw : lifetime_wish) : bool :=
  match lw_icon_name lw with
  | Some f => negb (String.eqb f Icons.PLACEHOLDER)
  | None => false
  end.

(** A database file in which a table that is absent has no rows and no
    sequence entry, and every index is on a table that exists. *)
Definition absent_is_empty (f : Schema.db_file) : Prop :=
  (Schema.has_table "saves" f = false ->
     saves (Schema.rows f) = [] /\ saves_seq (Schema.rows f) = 0)
  /\ (Schema.has_table "lifetime_wishes" f = false ->
        lifetime_wishes (Schema.rows f) = []
        /\ lifetime_wishes_seq (Schema.rows f) = 0)
  /\ (Schema.has_table "lifetime_wishes_progress" f = false ->
        lifetime_wishes_progress (Schema.rows f) = []
        /\ lifetime_wishes_progress_seq (Schema.rows f) = 0).

(** A row of the goal file that is one column short. *)
Definition short_row : csv_row :=
  [ ("Name", Some "Master Chef"); ("Source", Some "Base Game");
    ("Completion_Type", None) ].

Definition short_row_world : world :=
  {| today := "2024-02-02"; current_date := "2024-02-02";
     csv_file := Some [ [ ("Name", Some " Gold Digger ");
                          ("Source", Some "Base Game");
                          ("Completion_Type", Some "Checkmark") ];
                        short_row ];
     icon_dir := Some [ "gold_digger.png" ] |}.

Definition two_row_world : world :=
  {| today := "2024-02-02"; current_date := "2024-02-02";
     csv_file := Some [ [ ("Name", Some " Gold Digger ");
                          ("Source", Some "Base Game");
                          ("Completion_Type", Some "Checkmark") ];
                        [ ("Name", Some "Master Chef");
                          ("Source", Some "Base Game");
                          ("Completion_Type", Some "Checkmark") ] ];
     icon_dir := Some [ "gold_digger.png" ] |}.

(** The rows one wish contributes to the left join. *)
Definition joined (save_id : Z) (progress : list progress_row)
  (lw : lifetime_wish) : list (lifetime_wish * option progress_row) :=
  match filter (join_on save_id lw) progress with
  | [] => [(lw, None)]
  | matches => map (fun lwp => (lw, Some lwp)) matches
  end.

Definition rejoin (g : Z) (wr : progress_row)
  (j : lifetime_wish * option progress_row)
  : lifetime_wish * option progress_row :=
  if lw_id (fst j) =? g then (fst j, Some wr) else j.

(** The counts after one more stored wish. *)
Definition counted (lw : lifetime_wish) (n : counts) : counts :=
  {| loaded_count := S (loaded_count n);
     icon_count := if has_icon lw then S (icon_count n) else icon_count n;
     placeholder_count :=
       if has_icon lw then placeholder_count n else S (placeholder_count n) |}.

(** The largest id the wishes table of a connection has held. *)
Definition high_water (c : connection) : Z :=
  Z.max (lifetime_wishes_seq (txn c))
        (max_id (map lw_id (lifetime_wishes (txn c)))).

Definition with_wish (c : connection) (lw : lifetime_wish) : connection :=
  {| file := file c;
     txn := with_lifetime_wishes (txn c) (lifetime_wishes (txn c) ++ [lw])
              (lw_id lw);
     foreign_keys := foreign_keys c |}.

(** Whether the save and the wish a progress row names both exist. *)
Definition has_both (db : database) (p : progress_row) : bool :=
  mem_Z (lwp_save_id p) (map save_id (saves db))
  && mem_Z (lwp_lifetime_wish_id p) (map lw_id (lifetime_wishes db)).

(** The last character of a text. *)
Fixpoint last_char (s : string) : option ascii :=
  match s with
  | EmptyString => None
  | String c EmptyString => Some c
  | String _ s' => last_char s'
  end.

(** A text with no whitespace at either end. *)
Definition trimmed (t : string) : Prop :=
  (forall c rest, t = String c rest -> PyStr.isspace c = false)
  /\ (forall c, last_char t = Some c -> PyStr.isspace c = false).

(** A request other than an activation. *)
Definition no_activation (r : Session.request) : bool :=
  match r with
  | Session.ActivateSave _ => false
  | _ => true
  end.

End MoreSpec.

Module MoreIconSpec.
Import PyStr Icons IconSpec.

(** The characters normalization takes out or replaces. *)
Definition kept_out (c : ascii) : bool :=
  negb (Ascii.eqb (lower_char c) c)
  || Ascii.eqb c "'" || Ascii.eqb c (ascii_of_nat 34)
  || Ascii.eqb c "," || Ascii.eqb c ":"
  || Ascii.eqb c "-" || Ascii.eqb c " ".

End MoreIconSpec.

Module SchemaSpec.
Import Store Schema.

(** Every index is on a table the file has. *)
Definition indexes_on_tables (f : db_file) : Prop :=
  forall i, In i (indexes f) -> has_table (snd i) f = true.

(** The tables and the indexes of a file the script has run through. *)
Definition created_tables : list string :=
  [ "saves"; "lifetime_wishes"; "lifetime_wishes_progress";
    "collections"; "collections_progress"; "skills"; "skills_progress";
    "careers"; "careers_progress" ].

Definition created_indexes : list (string * string) :=
  [ ("idx_lifetime_wishes_source", "lifetime_wishes");
    ("idx_lifetime_wishes_progress_save", "lifetime_wishes_progress");
    ("idx_collections_progress_save", "collections_progress");
    ("idx_skills_progress_save", "skills_progress");
    ("idx_careers_progress_save", "careers_progress") ].

End SchemaSpec.

(* ------------------------------------------------------------------ *)
(** ** Properties of [update_lifetime_wish_progress] *)

Module ProgressFacts.
Import Store App StoreSpec Samples.
Open Scope Z_scope.

Lemma update_returns w s g c notes db :
  fst (update_lifetime_wish_progress w s g c notes db) = Returned tt.
Proof. reflexivity. Qed.

Lemma update_progress w s g c notes db :
  lifetime_wishes_progress
    (snd (update_lifetime_wish_progress w s g c notes db)) =
  (filter (fun p => negb (same_pair s g p)) (lifetime_wishes_progress db)
   ++ [written_row w db s g c notes])%list.
Proof. reflexivity. Qed.

Lemma update_saves w s g c notes db :
  saves (snd (update_lifetime_wish_progress w s g c notes db)) = saves db.
Proof. reflexivity. Qed.

Lemma update_lifetime_wishes w s g c notes db :
  lifetime_wishes (snd (update_lifetime_wish_progress w s g c notes db)) =
  lifetime_wishes db.
Proof. reflexivity. Qed.

Lemma same_pair_refl s g id c d n :
  same_pair s g (mk_progress_row id s g c d n) = true.
Proof. unfold same_pair; simpl. now rewrite !Z.eqb_refl. Qed.

Lemma filter_none {A} (f : A -> bool) (l : list A) :
  filter f (filter (fun x => negb (f x)) l) = [].
Proof.
  induction l as [|x l IH]; simpl; [reflexivity|].
  destruct (f x) eqn:E; simpl; [exact IH | now rewrite E].
Qed.

(** After an upsert the pair has exactly the row just written. *)
Lemma rows_of_update w s g c notes db :
  rows_of s g (snd (update_lifetime_wish_progress w s g c notes db)) =
  [written_row w db s g c notes].
Proof.
  unfold rows_of. rewrite update_progress, filter_app, filter_none.
  simpl. unfold written_row at 1. now rewrite same_pair_refl.
Qed.

(** The rows of the other pairs are kept, in their order. *)
Lemma rows_of_update_other w s g c notes db s' g' :
  (s', g') <> (s, g) ->
  rows_of s' g' (snd (update_lifetime_wish_progress w s g c notes db)) =
  rows_of s' g' db.
Proof.
  intros Hne. unfold rows_of. rewrite update_progress, filter_app.
  assert (Hoff : same_pair s' g' (written_row w db s g c notes) = false).
  { unfold same_pair, written_row; simpl.
    destruct (Z.eqb_spec s s'), (Z.eqb_spec g g'); subst; try reflexivity.
    now elim Hne. }
  simpl. rewrite Hoff, app_nil_r.
  induction (lifetime_wishes_progress db) as [|p l IH]; simpl; [reflexivity|].
  destruct (same_pair s g p) eqn:E1; simpl.
  - destruct (same_pair s' g' p) eqn:E2; [|exact IH].
    unfold same_pair in E1, E2.
    apply andb_true_iff in E1 as [A1 B1]. apply andb_true_iff in E2 as [A2 B2].
    apply Z.eqb_eq in A1, B1, A2, B2. elim Hne. congruence.
  - destruct (same_pair s' g' p); [now rewrite IH | exact IH].
Qed.

(** C3: an upsert with completed = true stores the date of the call as
    completed_date, a following upsert with completed = false stores NULL,
    and whatever the caller passes (save, wish, notes) the stored date is
    the clock's day when completed is true and NULL when it is false. *)
Theorem upsert_completed_date :
  forall (w1 w2 : world) (s g : Z) (n1 n2 : option string) (db : database),
    let db1 := snd (update_lifetime_wish_progress w1 s g true n1 db) in
    let db2 := snd (update_lifetime_wish_progress w2 s g false n2 db1) in
    map (fun p => (lwp_completed p, lwp_completed_date p)) (rows_of s g db1)
      = [(true, Some (today w1))]
    /\ map (fun p => (lwp_completed p, lwp_completed_date p)) (rows_of s g db2)
      = [(false, None)]
    /\ (forall (c : bool) (n : option string),
          map lwp_completed_date
            (rows_of s g (snd (update_lifetime_wish_progress w1 s g c n db)))
          = [if c then Some (today w1) else None]).
Proof.
  intros; subst db1 db2; repeat split; intros;
    rewrite rows_of_update; reflexivity.
Qed.

(** C4: after two upserts on the same (save, wish) pair the progress table
    holds exactly one row for the pair, and it carries the values of the
    second call. *)
Theorem upsert_twice_one_row :
  forall (w1 w2 : world) (s g : Z) (c1 c2 : bool) (n1 n2 : option string)
         (db : database),
    let db1 := snd (update_lifetime_wish_progress w1 s g c1 n1 db) in
    let db2 := snd (update_lifetime_wish_progress w2 s g c2 n2 db1) in
    exists id : Z,
      rows_of s g db2 =
      [ {| lwp_id := id;
           lwp_save_id := s;
           lwp_lifetime_wish_id := g;
           lwp_completed := c2;
           lwp_completed_date := if c2 then Some (today w2) else None;
           lwp_notes := Some match n2 with
                             | Some n => n
                             | None => EmptyString
                             end |} ].
Proof.
  intros. subst db2. rewrite rows_of_update. eexists. reflexivity.
Qed.

(** C10: an upsert replaces the whole row of the pair by its arguments, with
    notes the empty text when the argument is left out; so the checkbox
    handler, which leaves it out, erases notes that were stored, and the
    notes handler on a completed wish sets completed_date to the day of its
    own call. *)
Theorem upsert_replaces_whole_row :
  forall (w : world) (s : Z) (db : database),
    (forall (g : Z) (c : bool) (notes : option string),
        rows_of s g (snd (update_lifetime_wish_progress w s g c notes db)) =
        [written_row w db s g c notes])
    /\ (forall (wish : wish_with_progress) (c : bool) (old : progress_row),
          In old (rows_of s (r_id wish) db) ->
          lwp_notes old <> Some EmptyString ->
          c <> r_completed wish ->
          exists new,
            rows_of s (r_id wish) (snd (checkbox_changed w s wish c db))
              = [new]
            /\ lwp_notes new = Some EmptyString
            /\ lwp_notes new <> lwp_notes old)
    /\ (forall (wish : wish_with_progress) (notes : string),
          r_completed wish = true ->
          notes <> notes_or_empty wish ->
          exists new,
            rows_of s (r_id wish) (snd (notes_changed w s wish notes db))
              = [new]
            /\ lwp_completed_date new = Some (today w)
            /\ lwp_notes new = Some notes).
Proof.
  intros w s db. split; [|split].
  - intros. apply rows_of_update.
  - intros wish c old _ Hold Hc. unfold checkbox_changed.
    destruct (Bool.eqb c (r_completed wish)) eqn:E.
    + apply Bool.eqb_prop in E. contradiction.
    + cbn [negb]. rewrite rows_of_update. eexists. split; [reflexivity|].
      simpl. split; [reflexivity | congruence].
  - intros wish notes Hc Hn. unfold notes_changed.
    destruct (String.eqb_spec notes (notes_or_empty wish)) as [E|E];
      [contradiction|].
    cbn [negb]. rewrite rows_of_update, Hc. eexists. split; [reflexivity|].
    simpl. split; reflexivity.
Qed.

Lemma upsert_replaces_whole_row_witness :
  (exists new,
      rows_of 1 7 (snd (checkbox_changed no_file_world 1 noted_wish false noted_db))
        = [new]
      /\ lwp_notes new = Some EmptyString
      /\ lwp_notes new <> Some "gold")
  /\ (exists new,
      rows_of 1 7 (snd (notes_changed no_file_world 1 noted_wish "silver" noted_db))
        = [new]
      /\ lwp_completed_date new = Some "2024-02-02"
      /\ lwp_notes new = Some "silver").
Proof.
  destruct (upsert_replaces_whole_row no_file_world 1 noted_db) as [_ [H2 H3]].
  split.
  - apply (H2 noted_wish false
              (mk_progress_row 3 1 7 true (Some "2024-01-01") (Some "gold"))).
    + simpl. left. reflexivity.
    + simpl. discriminate.
    + simpl. discriminate.
  - apply (H3 noted_wish "silver").
    + reflexivity.
    + simpl. discriminate.
Defined.

End ProgressFacts.

(* ------------------------------------------------------------------ *)
(** ** Properties of the goal loader *)

Module LoaderFacts.
Import Store Loader StoreSpec Samples.
Open Scope Z_scope.

Lemma getitem_item row key c : getitem row key c = (item row key, c).
Proof.
  induction row as [|[k v] row IH]; simpl; [reflexivity|].
  destruct (String.eqb k key); [reflexivity | exact IH].
Qed.

Lemma same_but_wishes_refl c : same_but_wishes c c.
Proof. repeat split. Qed.

Lemma same_but_wishes_trans c1 c2 c3 :
  same_but_wishes c1 c2 -> same_but_wishes c2 c3 -> same_but_wishes c1 c3.
Proof.
  unfold same_but_wishes. intros (A1 & A2 & A3 & A4 & A5 & A6)
    (B1 & B2 & B3 & B4 & B5 & B6). repeat split; congruence.
Qed.

Ltac step_item :=
  match goal with
  | |- context [item ?row ?key] => destruct (item row key) as [[?|]|?]
  end.

Lemma load_row_frame w row n c :
  same_but_wishes c (snd (load_row w row n c)).
Proof.
  unfold load_row, bind. rewrite getitem_item.
  step_item; simpl; try apply same_but_wishes_refl.
  rewrite getitem_item.
  step_item; simpl; try apply same_but_wishes_refl.
  rewrite getitem_item.
  step_item; simpl; try apply same_but_wishes_refl.
  repeat split.
Qed.

Lemma load_rows_frame w rows : forall n c,
  same_but_wishes c (snd (load_rows w rows n c)).
Proof.
  induction rows as [|row rows IH]; intros n c; simpl.
  - apply same_but_wishes_refl.
  - unfold bind. pose proof (load_row_frame w row n c) as H.
    destruct (load_row w row n c) as [[n'|e] c']; simpl in H.
    + eapply same_but_wishes_trans; [exact H | apply IH].
    + exact H.
Qed.

Lemma has_text_item row key :
  has_text row key = true -> exists s, item row key = Returned (Some s).
Proof.
  unfold has_text. destruct (item row key) as [[s|]|]; try discriminate.
  eauto.
Qed.

(** A well-formed row is inserted: one more wish, one more counted. *)
Lemma load_row_well_formed w row n c :
  well_formed row = true ->
  exists n' c',
    load_row w row n c = (Returned n', c')
    /\ loaded_count n' = S (loaded_count n)
    /\ length (lifetime_wishes (txn c')) =
       S (length (lifetime_wishes (txn c))).
Proof.
  unfold well_formed. intros H.
  apply andb_true_iff in H as [H H3]. apply andb_true_iff in H as [H1 H2].
  apply has_text_item in H1 as [s1 E1], H2 as [s2 E2], H3 as [s3 E3].
  unfold load_row, bind. rewrite !getitem_item, E1. simpl.
  rewrite !getitem_item, E2. simpl. rewrite !getitem_item, E3. simpl.
  do 2 eexists. split; [reflexivity|]. simpl. split; [reflexivity|].
  rewrite length_app. simpl. lia.
Qed.

Lemma load_rows_well_formed w rows : forall n c,
  forallb well_formed rows = true ->
  exists n' c',
    load_rows w rows n c = (Returned n', c')
    /\ loaded_count n' = (loaded_count n + length rows)%nat
    /\ length (lifetime_wishes (txn c')) =
       (length (lifetime_wishes (txn c)) + length rows)%nat.
Proof.
  induction rows as [|row rows IH]; intros n c H; simpl in *.
  - exists n, c. repeat split; lia.
  - apply andb_true_iff in H as [Hr Hrs].
    destruct (load_row_well_formed w row n c Hr) as (n1 & c1 & E & L1 & L2).
    destruct (IH n1 c1 Hrs) as (n2 & c2 & E' & L1' & L2').
    exists n2, c2. unfold bind. rewrite E, E'. repeat split; lia.
Qed.

(** The loader by cases: no file; a row that raises; all rows inserted. *)
Lemma load_cases w db :
  load_lifetime_wishes w db =
  match csv_file w with
  | None => (Returned None, db)
  | Some rows =>
      match load_rows w rows no_counts (after_delete db) with
      | (Returned n, c) => (Returned (Some n), txn c)
      | (Raised e, c) => (Raised e, file c)
      end
  end.
Proof.
  unfold load_lifetime_wishes, on_file, load_lifetime_wishes_on_connection.
  unfold bind at 1. simpl.
  destruct (csv_file w) as [rows|]; [|reflexivity].
  unfold bind at 1. fold no_counts.
  change (load_rows w rows no_counts _)
    with (load_rows w rows no_counts (after_delete db)).
  destruct (load_rows w rows no_counts (after_delete db)) as [[n|e] c];
    reflexivity.
Qed.

(** The loader never touches the saves. *)
Lemma load_saves w db :
  saves (snd (load_lifetime_wishes w db)) = saves db.
Proof.
  rewrite load_cases. destruct (csv_file w) as [rows|]; [|reflexivity].
  pose proof (load_rows_frame w rows no_counts (after_delete db)) as H.
  destruct (load_rows w rows no_counts (after_delete db)) as [[n|e] c];
    destruct H as (F & _ & S & _); simpl in *; [exact S | now rewrite F].
Qed.

(** Nor, on a connection that does not enforce foreign keys, the progress
    rows. *)
Lemma load_progress w db :
  lifetime_wishes_progress (snd (load_lifetime_wishes w db)) =
  lifetime_wishes_progress db.
Proof.
  rewrite load_cases. destruct (csv_file w) as [rows|]; [|reflexivity].
  pose proof (load_rows_frame w rows no_counts (after_delete db)) as H.
  destruct (load_rows w rows no_counts (after_delete db)) as [[n|e] c];
    destruct H as (F & _ & _ & _ & P & _); simpl in *;
    [exact P | now rewrite F].
Qed.

(** On a file whose rows are all well-formed the loader returns, reports
    as many wishes as the file has rows, and leaves that many in the
    table. *)
Lemma load_count w db rows :
  csv_file w = Some rows ->
  forallb well_formed rows = true ->
  exists n,
    fst (load_lifetime_wishes w db) = Returned (Some n)
    /\ loaded_count n = length rows
    /\ length (lifetime_wishes (snd (load_lifetime_wishes w db))) =
       length rows.
Proof.
  intros Hf Hw. rewrite load_cases, Hf.
  destruct (load_rows_well_formed w rows no_counts (after_delete db) Hw)
    as (n' & c' & E & L1 & L2).
  rewrite E. exists n'. simpl in *. repeat split; assumption.
Qed.

(** Where foreign keys are enforced, [DELETE FROM lifetime_wishes] takes the
    progress rows of the deleted wishes with it. *)
Lemma delete_cascades_when_enforced c p :
  foreign_keys c = true ->
  In p (lifetime_wishes_progress (txn (snd (delete_lifetime_wishes c)))) ->
  ~ In (lwp_lifetime_wish_id p) (map lw_id (lifetime_wishes (txn c))).
Proof.
  intros Hfk. unfold delete_lifetime_wishes, bind, view, pragma_foreign_keys.
  simpl. rewrite Hfk. intros Hin Hgone.
  apply filter_In in Hin as [_ Hneg].
  apply negb_true_iff in Hneg.
  assert (mem_Z (lwp_lifetime_wish_id p)
            (map lw_id (lifetime_wishes (txn c))) = true) as Hmem.
  { unfold mem_Z. apply existsb_exists.
    exists (lwp_lifetime_wish_id p). split; [exact Hgone | apply Z.eqb_refl]. }
  congruence.
Qed.

(** C1: on [tracked_db] and a goal file of one row the loader leaves one
    wish, under the new id 2, and the progress row of the deleted wish 1 is
    still in the table: the connection does not enforce foreign keys, so the
    cascade the schema declares does not run. *)
Theorem reload_keeps_progress_of_deleted_wishes :
  let db' := snd (load_lifetime_wishes one_row_world tracked_db) in
  let session :=
    Session.serve_all
      [ (one_row_world, Session.LoadGoals);
        (one_row_world, Session.UpsertProgress 1 1 true (Some "done"));
        (one_row_world, Session.LoadGoals) ]
      (create_database one_row_world) in
  map lw_id (lifetime_wishes db') = [2]
  /\ lifetime_wishes_progress db' = lifetime_wishes_progress tracked_db
  /\ map lwp_lifetime_wish_id (lifetime_wishes_progress db') = [1]
  /\ map lw_id (lifetime_wishes session) = [2]
  /\ map lwp_lifetime_wish_id (lifetime_wishes_progress session) = [1].
Proof. vm_compute. repeat split. Qed.

(** C5 as stated fails: without a goal file the loader has already run its
    DELETE on the connection when it finds the file missing. *)
Lemma load_without_file_has_run_delete :
  ~ (forall w db,
        csv_file w = None ->
        lifetime_wishes
          (txn (snd (load_lifetime_wishes_on_connection w (connect db)))) =
        lifetime_wishes db).
Proof.
  intros H. specialize (H no_file_world tracked_db eq_refl).
  vm_compute in H. discriminate H.
Qed.

(** C5, amended: without a goal file the loader returns after its DELETE has
    emptied the wishes in the connection's open transaction, and without a
    commit; the database file, goals and progress rows included, is as it
    was. *)
Theorem load_without_file_commits_nothing :
  forall w db,
    csv_file w = None ->
    load_lifetime_wishes w db = (Returned None, db)
    /\ file (snd (load_lifetime_wishes_on_connection w (connect db))) = db
    /\ lifetime_wishes
         (txn (snd (load_lifetime_wishes_on_connection w (connect db)))) = [].
Proof.
  intros w db Hf. split.
  - now rewrite load_cases, Hf.
  - unfold load_lifetime_wishes_on_connection. unfold bind at 1 3. simpl.
    rewrite Hf. split; reflexivity.
Qed.

Lemma load_without_file_commits_nothing_witness :
  load_lifetime_wishes no_file_world tracked_db = (Returned None, tracked_db)
  /\ file (snd (load_lifetime_wishes_on_connection no_file_world
                  (connect tracked_db))) = tracked_db
  /\ lifetime_wishes
       (txn (snd (load_lifetime_wishes_on_connection no_file_world
                    (connect tracked_db)))) = [].
Proof.
  apply (load_without_file_commits_nothing no_file_world tracked_db).
  reflexivity.
Defined.

End LoaderFacts.

(* ------------------------------------------------------------------ *)
(** ** The saves table: unique names, one active save *)

Module SavesFacts.
Import Store App StoreSpec Samples.
Open Scope Z_scope.

Lemma max_id_ge ids x : In x ids -> x <= max_id ids.
Proof.
  induction ids as [|y ids IH]; simpl; [contradiction|].
  intros [->|H]; [lia | specialize (IH H); lia].
Qed.

Lemma next_id_fresh seq ids : ~ In (next_id seq ids) ids.
Proof.
  intros H. apply max_id_ge in H. unfold next_id in H. lia.
Qed.

Lemma create_new_save_cases w name description db :
  create_new_save w name description db =
  if existsb (named name) (saves db)
  then (Raised (IntegrityError "UNIQUE constraint failed: saves.name"), db)
  else (Returned tt,
        with_saves db (saves db ++ [new_save w db name description])
          (next_id (saves_seq db) (map save_id (saves db)))).
Proof.
  unfold create_new_save, on_file, insert_save, bind, view. simpl.
  unfold named. destruct (existsb _ (saves db)); reflexivity.
Qed.

Lemma set_active_save_saves id db :
  saves (snd (set_active_save id db)) =
  map (fun s => set_is_active (save_id s =? id) s) (saves db).
Proof.
  unfold set_active_save, on_file. simpl. rewrite map_map.
  apply map_ext. intros s. simpl. destruct (save_id s =? id); reflexivity.
Qed.

Lemma existsb_named_In name l :
  existsb (named name) l = true <-> In name (map save_name l).
Proof.
  rewrite existsb_exists, in_map_iff. unfold named.
  split; intros (s & A & B).
  - apply String.eqb_eq in B. eauto.
  - exists s. split; [assumption | now apply String.eqb_eq].
Qed.

Lemma filter_all_false {A} (f : A -> bool) l :
  (forall x, In x l -> f x = false) -> filter f l = [].
Proof.
  induction l as [|x l IH]; simpl; intros H; [reflexivity|].
  rewrite (H x (or_introl eq_refl)). apply IH. intros; apply H; now right.
Qed.

(** With unique ids at most one save carries a given id. *)
Lemma one_with_id id l :
  NoDup (map save_id l) ->
  (length (filter (fun s => (save_id s =? id)%Z) l) <= 1)%nat.
Proof.
  induction l as [|s l IH]; simpl; intros Hnd; [lia|].
  inversion Hnd as [|? ? Hnotin Hnd']; subst.
  destruct (Z.eqb_spec (save_id s) id) as [E|E]; [|now apply IH].
  simpl. rewrite filter_all_false; [simpl; lia|].
  intros x Hx. apply Z.eqb_neq. intros Ex. apply Hnotin.
  apply in_map_iff. exists x. split; [congruence | assumption].
Qed.

Lemma filter_active_after_set id l :
  length (filter is_active
            (map (fun s => set_is_active (save_id s =? id) s) l)) =
  length (filter (fun s => save_id s =? id) l).
Proof.
  induction l as [|s l IH]; simpl; [reflexivity|].
  destruct (save_id s =? id); simpl; now rewrite IH.
Qed.

Lemma NoDup_snoc {A} (l : list A) x : NoDup l -> ~ In x l -> NoDup (l ++ [x]).
Proof.
  intros Hl Hx. induction l as [|y l IH]; simpl.
  - constructor; [intros []| constructor].
  - inversion Hl; subst. constructor.
    + rewrite in_app_iff. intros [H|[H|[]]]; [contradiction|].
      subst. apply Hx. now left.
    + apply IH; [assumption|]. intros H; apply Hx; now right.
Qed.

Lemma consistent_create_database w : consistent (create_database w).
Proof.
  split; simpl; repeat constructor; simpl; try tauto.
Qed.

Lemma consistent_create_new_save w name description db :
  consistent db -> consistent (snd (create_new_save w name description db)).
Proof.
  intros [I N P A]. rewrite create_new_save_cases.
  destruct (existsb (named name) (saves db)) eqn:E; simpl; [now split|].
  split; simpl; try assumption.
  - rewrite map_app. apply NoDup_snoc; [assumption|]. apply next_id_fresh.
  - rewrite map_app. apply NoDup_snoc; [assumption|]. simpl.
    intros H. apply existsb_named_In in H. congruence.
  - unfold active_count in *. simpl. rewrite filter_app, length_app. simpl.
    lia.
Qed.

Lemma consistent_set_active_save id db :
  consistent db -> consistent (snd (set_active_save id db)).
Proof.
  intros [I N P A].
  assert (Hid : map save_id (saves (snd (set_active_save id db))) =
                map save_id (saves db)).
  { rewrite set_active_save_saves, map_map. now apply map_ext. }
  assert (Hname : map save_name (saves (snd (set_active_save id db))) =
                  map save_name (saves db)).
  { rewrite set_active_save_saves, map_map. now apply map_ext. }
  split.
  - now rewrite Hid.
  - now rewrite Hname.
  - exact P.
  - unfold active_count. rewrite set_active_save_saves.
    rewrite filter_active_after_set. now apply one_with_id.
Qed.

Lemma NoDup_map_filter {A B} (f : A -> B) (q : A -> bool) l :
  NoDup (map f l) -> NoDup (map f (filter q l)).
Proof.
  induction l as [|x l IH]; simpl; intros H; [constructor|].
  inversion H as [|? ? Hx Hl]; subst.
  destruct (q x); simpl; [|now apply IH].
  constructor; [|now apply IH].
  rewrite in_map_iff in *. intros (y & E & Hy). apply Hx.
  apply filter_In in Hy as [Hy _]. eauto.
Qed.

Lemma consistent_update w s g c notes db :
  consistent db ->
  consistent (snd (update_lifetime_wish_progress w s g c notes db)).
Proof.
  intros [I N P A]. split; try assumption.
  rewrite ProgressFacts.update_progress, map_app.
  apply NoDup_snoc; [now apply NoDup_map_filter|]. simpl.
  rewrite in_map_iff. intros (p & E & Hp).
  apply filter_In in Hp as [_ Hp]. apply negb_true_iff in Hp.
  unfold pair_of in E. injection E as E1 E2. unfold same_pair in Hp.
  rewrite E1, E2, !Z.eqb_refl in Hp. discriminate.
Qed.

Lemma consistent_load w db :
  consistent db -> consistent (snd (Loader.load_lifetime_wishes w db)).
Proof.
  intros [I N P A]. split; unfold active_count;
    rewrite ?LoaderFacts.load_saves, ?LoaderFacts.load_progress; assumption.
Qed.

Lemma consistent_serve w r db :
  consistent db -> consistent (Session.serve w r db).
Proof.
  destruct r; simpl.
  - apply consistent_create_new_save.
  - apply consistent_set_active_save.
  - apply consistent_update.
  - apply consistent_load.
Qed.

Lemma consistent_serve_all rs : forall db,
  consistent db -> consistent (Session.serve_all rs db).
Proof.
  induction rs as [|[w r] rs IH]; simpl; intros db H; [exact H|].
  apply IH. now apply consistent_serve.
Qed.

Lemma one_named name l :
  NoDup (map save_name l) ->
  In name (map save_name l) ->
  length (filter (named name) l) = 1%nat.
Proof.
  induction l as [|s l IH]; simpl; intros Hnd Hin; [contradiction|].
  inversion Hnd as [|? ? Hnotin Hnd']; subst. unfold named at 1.
  destruct (String.eqb_spec (save_name s) name) as [E|E].
  - simpl. rewrite filter_all_false; [reflexivity|].
    intros x Hx. unfold named. apply String.eqb_neq. intros Ex.
    apply Hnotin. apply in_map_iff. exists x. split; [congruence|assumption].
  - destruct Hin as [Hin|Hin]; [contradiction|]. now apply IH.
Qed.

Lemma active_after_set id db s :
  In s (saves (snd (set_active_save id db))) ->
  is_active s = (save_id s =? id).
Proof.
  rewrite set_active_save_saves, in_map_iff. intros (s0 & <- & _).
  reflexivity.
Qed.

(** C2: whatever requests are served on a newly created database, at most
    one save is active afterwards; [set_active_save] clears the flag on every
    save and then sets it on the saves with the target id, so that afterwards
    a save is active exactly when its id is the target; [create_new_save]
    appends its save with the flag off, or leaves the table alone. *)
Theorem at_most_one_active_save :
  (forall (w0 : world) (rs : list (world * Session.request)),
      (active_count (Session.serve_all rs (create_database w0)) <= 1)%nat)
  /\ (forall (id : Z) (db : database),
        fst (set_active_save id db) = Returned tt
        /\ saves (snd (set_active_save id db)) =
           map (fun s => if save_id s =? id then set_is_active true s else s)
               (map (set_is_active false) (saves db))
        /\ (forall s, In s (saves (snd (set_active_save id db))) ->
                      is_active s = (save_id s =? id)))
  /\ (forall (w : world) (name description : string) (db : database),
        saves (snd (create_new_save w name description db)) =
        (if existsb (named name) (saves db)
         then saves db
         else saves db ++ [new_save w db name description])%list
        /\ is_active (new_save w db name description) = false).
Proof.
  split; [|split].
  - intros w0 rs.
    apply (one_active _
             (consistent_serve_all rs _ (consistent_create_database w0))).
  - intros id db. split; [reflexivity|]. split; [reflexivity|].
    intros s. apply active_after_set.
  - intros w name description db. split; [|reflexivity].
    rewrite create_new_save_cases.
    destruct (existsb (named name) (saves db)); reflexivity.
Qed.

Lemma at_most_one_active_save_witness :
  (active_count
     (Session.serve_all
        [ (no_file_world, Session.CreateSave "Alpha" "second family");
          (no_file_world, Session.ActivateSave 2);
          (no_file_world, Session.ActivateSave 1) ]
        (create_database no_file_world)) <= 1)%nat
  /\ (forall s,
         In s (saves (snd (set_active_save 1 (create_database no_file_world)))) ->
         is_active s = (save_id s =? 1)).
Proof.
  destruct at_most_one_active_save as [H1 [H2 _]]. split.
  - apply H1.
  - apply (H2 1 (create_database no_file_world)).
Defined.

(** C9: on a saves table with unique names, [create_new_save] with a name
    the table has raises the UNIQUE-constraint error and leaves the file as it
    was, with its one row of that name; with a name the table does not have
    it returns and appends the new save, inactive. *)
Theorem create_save_duplicate_name :
  forall (w : world) (name description : string) (db : database),
    NoDup (map save_name (saves db)) ->
    (In name (map save_name (saves db)) ->
       create_new_save w name description db =
         (Raised (IntegrityError "UNIQUE constraint failed: saves.name"), db)
       /\ length (filter (named name)
                    (saves (snd (create_new_save w name description db))))
          = 1%nat)
    /\ (~ In name (map save_name (saves db)) ->
        fst (create_new_save w name description db) = Returned tt
        /\ saves (snd (create_new_save w name description db)) =
           (saves db ++ [new_save w db name description])%list
        /\ save_name (new_save w db name description) = name
        /\ is_active (new_save w db name description) = false).
Proof.
  intros w name description db Hnd.
  rewrite create_new_save_cases. split; intros Hin.
  - rewrite (proj2 (existsb_named_In name (saves db)) Hin). simpl.
    split; [reflexivity | now apply one_named].
  - destruct (existsb (named name) (saves db)) eqn:E.
    + apply existsb_named_In in E. contradiction.
    + simpl. repeat split.
Qed.

Lemma create_save_duplicate_name_witness :
  (create_new_save no_file_world "Alpha" "again" alpha_db =
     (Raised (IntegrityError "UNIQUE constraint failed: saves.name"), alpha_db)
   /\ length (filter (named "Alpha")
                (saves (snd (create_new_save no_file_world "Alpha" "again"
                               alpha_db)))) = 1%nat)
  /\ (fst (create_new_save no_file_world "Beta" "other" alpha_db) = Returned tt
      /\ saves (snd (create_new_save no_file_world "Beta" "other" alpha_db)) =
         (saves alpha_db ++ [new_save no_file_world alpha_db "Beta" "other"])%list
      /\ save_name (new_save no_file_world alpha_db "Beta" "other") = "Beta"
      /\ is_active (new_save no_file_world alpha_db "Beta" "other") = false).
Proof.
  assert (Hnd : NoDup (map save_name (saves alpha_db))).
  { simpl. repeat constructor; simpl; intuition discriminate. }
  split.
  - apply (proj1 (create_save_duplicate_name no_file_world "Alpha" "again"
                    alpha_db Hnd)).
    simpl. right. left. reflexivity.
  - apply (proj2 (create_save_duplicate_name no_file_world "Beta" "other"
                    alpha_db Hnd)).
    simpl. intuition discriminate.
Defined.

End SavesFacts.

(* ------------------------------------------------------------------ *)
(** ** Properties of [get_lifetime_wishes_with_progress] *)

Module QueryFacts.
Import Store App StoreSpec Samples.
Open Scope Z_scope.

Section OrderBy.
Context {A : Type} (le : A -> A -> bool).
Hypothesis le_total : forall a b, le a b = true \/ le b a = true.

Let before (a b : A) : Prop := le a b = true.

Lemma insert_by_perm x l : Permutation (x :: l) (insert_by le x l).
Proof.
  induction l as [|y l IH]; simpl; [apply Permutation_refl|].
  destruct (le x y); [apply Permutation_refl|].
  eapply perm_trans; [apply perm_swap|]. now apply perm_skip.
Qed.

Lemma order_by_perm l : Permutation l (order_by le l).
Proof.
  induction l as [|x l IH]; simpl; [constructor|].
  eapply perm_trans; [|apply insert_by_perm]. now apply perm_skip.
Qed.

Lemma insert_by_head x y l :
  before y x ->
  HdRel before y l -> HdRel before y (insert_by le x l).
Proof.
  intros Hyx Hl. destruct l as [|z l]; simpl.
  - now constructor.
  - inversion Hl; subst. destruct (le x z); now constructor.
Qed.

Lemma insert_by_sorted x l :
  Sorted before l -> Sorted before (insert_by le x l).
Proof.
  induction 1 as [|y l Hs IH Hhd]; simpl.
  - repeat constructor.
  - destruct (le x y) eqn:E.
    + constructor; [now constructor | now constructor].
    + constructor; [exact IH|].
      apply insert_by_head; [|exact Hhd].
      destruct (le_total x y) as [H|H]; [congruence | exact H].
Qed.

Lemma order_by_sorted l : Sorted before (order_by le l).
Proof.
  induction l as [|x l IH]; simpl; [constructor|].
  now apply insert_by_sorted.
Qed.
End OrderBy.

Lemma source_name_le_total a b :
  source_name_le a b = true \/ source_name_le b a = true.
Proof.
  unfold source_name_le.
  rewrite (String.compare_antisym (lw_source (fst b)) (lw_source (fst a))).
  destruct (String.compare (lw_source (fst a)) (lw_source (fst b))) eqn:E;
    simpl; auto.
  apply String.leb_total.
Qed.

Lemma ascii_compare_lt_trans x y z :
  Ascii.compare x y = Lt -> Ascii.compare y z = Lt -> Ascii.compare x z = Lt.
Proof. unfold Ascii.compare. rewrite !N.compare_lt_iff. apply N.lt_trans. Qed.

Lemma string_compare_lt_trans a : forall b c,
  String.compare a b = Lt -> String.compare b c = Lt ->
  String.compare a c = Lt.
Proof.
  induction a as [|x a IH]; intros [|y b] [|z c]; simpl;
    try discriminate; try reflexivity.
  destruct (Ascii.compare x y) eqn:Exy; try discriminate.
  - apply Ascii.compare_eq_iff in Exy. subst y.
    destruct (Ascii.compare x z); try discriminate; [apply IH | reflexivity].
  - intros _. destruct (Ascii.compare y z) eqn:Eyz; try discriminate.
    + apply Ascii.compare_eq_iff in Eyz. subst z. now rewrite Exy.
    + now rewrite (ascii_compare_lt_trans x y z Exy Eyz).
Qed.

Lemma string_leb_cases a b :
  String.leb a b = true -> String.compare a b = Lt \/ a = b.
Proof.
  unfold String.leb. destruct (String.compare a b) eqn:E; try discriminate.
  - right. now apply String.compare_eq_iff.
  - now left.
Qed.

Lemma string_lt_leb a b : String.compare a b = Lt -> String.leb a b = true.
Proof. unfold String.leb. now intros ->. Qed.

Lemma string_leb_trans a b c :
  String.leb a b = true -> String.leb b c = true -> String.leb a c = true.
Proof.
  intros Hab Hbc. destruct (string_leb_cases a b Hab) as [Lab| ->];
    [|exact Hbc].
  destruct (string_leb_cases b c Hbc) as [Lbc| <-]; [|exact Hab].
  apply string_lt_leb. eapply string_compare_lt_trans; eassumption.
Qed.

Lemma string_ltb_lt a b : String.ltb a b = true <-> String.compare a b = Lt.
Proof.
  unfold String.ltb. destruct (String.compare a b); split; congruence.
Qed.

Lemma by_source_then_name_trans r1 r2 r3 :
  by_source_then_name r1 r2 -> by_source_then_name r2 r3 ->
  by_source_then_name r1 r3.
Proof.
  unfold by_source_then_name. rewrite !string_ltb_lt.
  intros [L12|[E12 N12]] [L23|[E23 N23]].
  - left. eapply string_compare_lt_trans; eassumption.
  - left. now rewrite <- E23.
  - left. now rewrite E12.
  - right. split; [congruence|]. eapply string_leb_trans; eassumption.
Qed.

Lemma source_name_le_spec a b :
  source_name_le a b = true ->
  by_source_then_name (select_columns a) (select_columns b).
Proof.
  destruct a as [lw1 o1], b as [lw2 o2].
  unfold source_name_le, by_source_then_name, String.ltb. simpl.
  destruct (String.compare (lw_source lw1) (lw_source lw2)) eqn:E;
    intros H; try discriminate.
  - right. split; [now apply String.compare_eq_iff | exact H].
  - now left.
Qed.

Lemma Sorted_map {A B} (R : A -> A -> Prop) (Q : B -> B -> Prop)
      (f : A -> B) l :
  (forall a b, R a b -> Q (f a) (f b)) ->
  Sorted R l -> Sorted Q (map f l).
Proof.
  intros HRQ. induction 1 as [|x l Hs IH Hhd]; simpl; constructor.
  - exact IH.
  - destruct Hhd; simpl; constructor. now apply HRQ.
Qed.

Lemma join_on_pair save_id lw p :
  join_on save_id lw p = true <-> pair_of p = (save_id, lw_id lw).
Proof.
  unfold join_on, pair_of. rewrite andb_true_iff, !Z.eqb_eq.
  split; [intros [-> <-]; reflexivity | intros E; injection E; auto].
Qed.

(** Under UNIQUE(save_id, lifetime_wish_id) a wish joins with at most one
    progress row. *)
Lemma at_most_one_match save_id lw l :
  NoDup (map pair_of l) ->
  (length (filter (join_on save_id lw) l) <= 1)%nat.
Proof.
  induction l as [|p l IH]; simpl; intros Hnd; [lia|].
  inversion Hnd as [|? ? Hnotin Hnd']; subst.
  destruct (join_on save_id lw p) eqn:E; [|now apply IH].
  simpl. rewrite SavesFacts.filter_all_false; [simpl; lia|].
  intros q Hq. destruct (join_on save_id lw q) eqn:Eq; [|reflexivity].
  apply join_on_pair in E, Eq. elim Hnotin.
  apply in_map_iff. exists q. split; [congruence | assumption].
Qed.

Lemma left_join_wishes save_id db :
  NoDup (map pair_of (lifetime_wishes_progress db)) ->
  map fst (left_join save_id db) = lifetime_wishes db.
Proof.
  intros Hnd. unfold left_join.
  induction (lifetime_wishes db) as [|lw l IH]; [reflexivity|].
  cbn [flat_map]. rewrite map_app, IH.
  pose proof (at_most_one_match save_id lw _ Hnd) as Hlen.
  destruct (filter (join_on save_id lw) (lifetime_wishes_progress db))
    as [|p [|q rest]]; simpl in *; try reflexivity; lia.
Qed.

Lemma left_join_match save_id db lw p :
  In (lw, Some p) (left_join save_id db) ->
  In p (rows_of save_id (lw_id lw) db).
Proof.
  unfold left_join. rewrite in_flat_map. intros (lw' & _ & Hin).
  destruct (filter (join_on save_id lw') (lifetime_wishes_progress db))
    as [|m ms] eqn:E.
  - destruct Hin as [Hin|[]]. discriminate.
  - rewrite <- E in Hin. apply in_map_iff in Hin as (p' & Ep & Hp).
    injection Ep as -> ->. apply filter_In in Hp as [Hp Hj].
    unfold rows_of. apply filter_In. split; [exact Hp|].
    apply join_on_pair in Hj. unfold pair_of in Hj. injection Hj as E1 E2.
    unfold same_pair. now rewrite E1, E2, !Z.eqb_refl.
Qed.

Lemma row_wish_columns_select j :
  row_wish_columns (select_columns j) = wish_columns (fst j).
Proof. destruct j as [lw o]. reflexivity. Qed.

(** C8 as stated fails: where the save has no progress row for a wish the
    notes come back NULL, not as the empty text. *)
Lemma notes_default_is_null :
  ~ (forall save_id db r,
        In r (get_lifetime_wishes_with_progress save_id db) ->
        rows_of save_id (r_id r) db = [] ->
        r_completed r = false
        /\ r_notes r = Some EmptyString
        /\ r_completed_date r = None).
Proof.
  intros H.
  destruct (H 2 tracked_db
              (mk_wish_with_progress 1 "Master Chef" "Base Game" "Checkmark"
                 (Some "PLACEHOLDER") false None None))
    as (_ & Hnotes & _).
  - simpl. left. reflexivity.
  - reflexivity.
  - discriminate Hnotes.
Qed.

(** C8, amended: on a progress table that satisfies its UNIQUE(save_id,
    lifetime_wish_id) constraint the query returns every wish exactly once,
    ordered by source and then by name (each row before every later row),
    and a wish for which the save has no progress row comes with
    completed = false, completed_date NULL and notes NULL. *)
Theorem wishes_with_progress_listing :
  forall (save_id : Z) (db : database),
    NoDup (map pair_of (lifetime_wishes_progress db)) ->
    let rows := get_lifetime_wishes_with_progress save_id db in
    Permutation (map row_wish_columns rows)
                (map wish_columns (lifetime_wishes db))
    /\ StronglySorted by_source_then_name rows
    /\ (forall r,
          In r rows ->
          rows_of save_id (r_id r) db = [] ->
          r_completed r = false
          /\ r_completed_date r = None
          /\ r_notes r = None).
Proof.
  intros save_id db Hnd rows. subst rows.
  unfold get_lifetime_wishes_with_progress. split; [|split].
  - rewrite map_map.
    rewrite (map_ext _ (fun j => wish_columns (fst j))
               row_wish_columns_select).
    rewrite <- (left_join_wishes save_id db Hnd).
    rewrite (map_map fst wish_columns).
    apply Permutation_map, Permutation_sym, order_by_perm.
  - apply Sorted_StronglySorted.
    + intros r1 r2 r3. apply by_source_then_name_trans.
    + apply Sorted_map with (R := fun a b => source_name_le a b = true).
      * apply source_name_le_spec.
      * apply order_by_sorted, source_name_le_total.
  - intros r Hr Hnone. apply in_map_iff in Hr as ([lw [p|]] & <- & Hj).
    + apply (Permutation_in _ (Permutation_sym (order_by_perm _ _))) in Hj.
      apply left_join_match in Hj. simpl in Hnone. rewrite Hnone in Hj.
      destruct Hj.
    + repeat split.
Qed.

Lemma wishes_with_progress_listing_witness :
  let rows := get_lifetime_wishes_with_progress 2 tracked_db in
  Permutation (map row_wish_columns rows)
              (map wish_columns (lifetime_wishes tracked_db))
  /\ StronglySorted by_source_then_name rows
  /\ (forall r,
        In r rows ->
        rows_of 2 (r_id r) tracked_db = [] ->
        r_completed r = false
        /\ r_completed_date r = None
        /\ r_notes r = None).
Proof.
  apply (wishes_with_progress_listing 2 tracked_db).
  simpl. repeat constructor. simpl. tauto.
Defined.

End QueryFacts.

(* ------------------------------------------------------------------ *)
(** ** Properties of the icon resolver *)

Module IconFacts.
Import PyStr Icons IconSpec.

(** *** Normalization *)

Lemma append_assoc (a b c : string) : (a ++ b) ++ c = a ++ (b ++ c).
Proof. induction a as [|x a IH]; simpl; [reflexivity | now rewrite IH]. Qed.

Lemma append_empty (a : string) : a ++ EmptyString = a.
Proof. induction a as [|x a IH]; simpl; [reflexivity | now rewrite IH]. Qed.

Lemma prefix_cons a p c s :
  prefix (String a p) (String c s) = Ascii.eqb a c && prefix p s.
Proof.
  simpl. destruct (ascii_dec a c) as [->|Hne].
  - now rewrite Ascii.eqb_refl.
  - apply Ascii.eqb_neq in Hne. now rewrite Hne.
Qed.

Lemma prefix_empty s : prefix EmptyString s = true.
Proof. destruct s; reflexivity. Qed.

(** [replace] with a one-character [old] works character by character. *)
Lemma replace_char_cons a new c s :
  replace (String a EmptyString) new (String c s) =
  (if Ascii.eqb a c then new else String c EmptyString)
  ++ replace (String a EmptyString) new s.
Proof.
  unfold replace. cbn [replace_from]. rewrite prefix_cons, prefix_empty.
  rewrite andb_true_r. destruct (Ascii.eqb a c); reflexivity.
Qed.

Lemma replace_char_app a new s1 s2 :
  replace (String a EmptyString) new (s1 ++ s2) =
  replace (String a EmptyString) new s1 ++ replace (String a EmptyString) new s2.
Proof.
  induction s1 as [|c s1 IH]; [reflexivity|].
  cbn [append]. rewrite !replace_char_cons, IH. now rewrite append_assoc.
Qed.

Lemma lower_app s1 s2 : lower (s1 ++ s2) = lower s1 ++ lower s2.
Proof. induction s1 as [|c s1 IH]; simpl; [reflexivity | now rewrite IH]. Qed.

Lemma pre_clean_app s1 s2 : pre_clean (s1 ++ s2) = pre_clean s1 ++ pre_clean s2.
Proof.
  unfold pre_clean, double_quote. now rewrite lower_app, !replace_char_app.
Qed.

Lemma pre_clean_char c : pre_clean (String c EmptyString) = clean_char c.
Proof.
  destruct c as [[] [] [] [] [] [] [] []]; reflexivity.
Qed.

Lemma pre_clean_concat_map name : pre_clean name = concat_map clean_char name.
Proof.
  induction name as [|c name IH]; [reflexivity|].
  change (String c name) with (String c EmptyString ++ name).
  rewrite pre_clean_app, pre_clean_char, IH. reflexivity.
Qed.

(** [replace "__" "_"] is the one pass of [halve_pairs]. *)
Lemma replace_pairs_cons2 c d s :
  replace "__" "_" (String c (String d s)) =
  if Ascii.eqb c "_" && Ascii.eqb d "_"
  then String "_" (replace "__" "_" s)
  else String c (replace "__" "_" (String d s)).
Proof.
  unfold replace. cbn [replace_from]. rewrite !prefix_cons, prefix_empty.
  rewrite andb_true_r, (Ascii.eqb_sym "_" c), (Ascii.eqb_sym "_" d).
  destruct (Ascii.eqb c "_" && Ascii.eqb d "_"); reflexivity.
Qed.

Lemma halve_pairs_cons2 c d s :
  halve_pairs (String c (String d s)) =
  if Ascii.eqb c "_" && Ascii.eqb d "_"
  then String "_" (halve_pairs s)
  else String c (halve_pairs (String d s)).
Proof. reflexivity. Qed.

Lemma string_ind2 (P : string -> Prop) :
  P EmptyString ->
  (forall c, P (String c EmptyString)) ->
  (forall c d s, P s -> P (String d s) -> P (String c (String d s))) ->
  forall s, P s.
Proof.
  intros H0 H1 H2 s.
  enough (P s /\ forall c, P (String c s)) by tauto.
  induction s as [|d s [IHs IHc]]; split; auto.
Qed.

Lemma replace_pairs_halve s : replace "__" "_" s = halve_pairs s.
Proof.
  induction s as [|c|c d s IH1 IH2] using string_ind2.
  - reflexivity.
  - unfold replace. cbn [replace_from halve_pairs]. rewrite prefix_cons.
    simpl. now rewrite andb_false_r.
  - rewrite replace_pairs_cons2, halve_pairs_cons2, IH1, IH2. reflexivity.
Qed.

Lemma halve_pairs_head s : prefix "_" (halve_pairs s) = prefix "_" s.
Proof.
  destruct s as [|c [|d s]]; try reflexivity. rewrite halve_pairs_cons2.
  destruct (Ascii.eqb c "_" && Ascii.eqb d "_") eqn:E;
    rewrite !prefix_cons, !prefix_empty; [|reflexivity].
  apply andb_true_iff in E as [E _]. apply Ascii.eqb_eq in E. now subst.
Qed.

Lemma contains_cons needle c s :
  contains needle (String c s) =
  prefix needle (String c s) || contains needle s.
Proof. reflexivity. Qed.

(** [prefix] of a text of underscores, read off the head of the other. *)
Lemma prefix_underscores_2 s :
  prefix "__" s = prefix "_" s && prefix "_" (match s with
                                              | EmptyString => EmptyString
                                              | String _ s' => s'
                                              end).
Proof.
  destruct s as [|c s]; [reflexivity|].
  now rewrite !prefix_cons, prefix_empty, andb_true_r.
Qed.

(** After the pass two underscores stand together exactly where three or
    more stood together before it. *)
Lemma halve_pairs_double s :
  contains "__" (halve_pairs s) = contains "___" s.
Proof.
  induction s as [|c|c d s IH1 IH2] using string_ind2.
  - reflexivity.
  - cbn [halve_pairs]. rewrite !contains_cons, !prefix_cons.
    cbn [contains prefix]. now rewrite !andb_false_r.
  - rewrite halve_pairs_cons2.
    rewrite (contains_cons "___" c), (contains_cons "___" d), <- IH1.
    rewrite (prefix_cons "_" "__" c), (prefix_cons "_" "_" d).
    rewrite (prefix_cons "_" "__" d), prefix_underscores_2.
    rewrite (Ascii.eqb_sym "_" c), (Ascii.eqb_sym "_" d).
    destruct (Ascii.eqb c "_") eqn:Ec, (Ascii.eqb d "_") eqn:Ed;
      cbn [andb orb].
    + rewrite contains_cons, prefix_cons, Ascii.eqb_refl, halve_pairs_head.
      cbn [andb]. destruct (prefix "_" s); reflexivity.
    + rewrite contains_cons, IH2, contains_cons.
      rewrite (prefix_cons "_" "_" c).
      pose proof (halve_pairs_head (String d s)) as Hh.
      rewrite (prefix_cons "_" EmptyString d), (Ascii.eqb_sym "_" d), Ed in Hh.
      cbn [andb] in Hh. rewrite Hh, andb_false_r.
      rewrite (prefix_cons "_" "__" d), (Ascii.eqb_sym "_" d), Ed.
      rewrite IH1. reflexivity.
    + rewrite contains_cons, IH2, contains_cons.
      rewrite (prefix_cons "_" "_" c), (Ascii.eqb_sym "_" c), Ec.
      rewrite (prefix_cons "_" "__" d), (Ascii.eqb_sym "_" d), Ed.
      cbn [andb orb]. rewrite prefix_underscores_2, IH1. reflexivity.
    + rewrite contains_cons, IH2, contains_cons.
      rewrite (prefix_cons "_" "_" c), (Ascii.eqb_sym "_" c), Ec.
      rewrite (prefix_cons "_" "__" d), (Ascii.eqb_sym "_" d), Ed.
      rewrite IH1. reflexivity.
Qed.

(** C7: on the name [Jack - Jill] the steps up to line 24 give
    [jack___jill], as the claim describes them (lowercase, the hyphen and the
    two spaces turned into underscores); line 25 then leaves [jack__jill], so
    the normalized name holds two underscores in a row, where the claim says
    the doubled underscores are all collapsed. *)
Theorem clean_leaves_double_underscore :
  pre_clean "Jack - Jill" = "jack___jill"
  /\ clean "Jack - Jill" = "jack__jill"
  /\ contains "__" (clean "Jack - Jill") = true.
Proof. vm_compute. repeat split. Qed.

(** *** Resolution *)

Lemma try_patterns_find patterns icon_files :
  try_patterns patterns icon_files =
  find (fun p => mem p icon_files) patterns.
Proof.
  induction patterns as [|p ps IH]; simpl; [reflexivity|].
  destruct (mem p icon_files); [reflexivity | exact IH].
Qed.

Lemma try_parts_existsb icon_file icon_base name_parts :
  try_parts icon_file icon_base name_parts =
  if existsb (fun part => (3 <? String.length part)%nat
                          && contains part icon_base) name_parts
  then Some icon_file else None.
Proof.
  induction name_parts as [|part rest IH]; simpl; [reflexivity|].
  destruct ((3 <? String.length part)%nat && contains part icon_base);
    [reflexivity | exact IH].
Qed.

Lemma try_files_find icon_files name_parts :
  try_files icon_files name_parts =
  find (significant_part_in without_any_png name_parts) icon_files.
Proof.
  induction icon_files as [|f fs IH]; simpl; [reflexivity|].
  rewrite try_parts_existsb. unfold significant_part_in at 1.
  unfold without_any_png at 1.
  destruct (existsb _ name_parts); [reflexivity | exact IH].
Qed.

(** The code follows the order of the specification, with [icon_base] read
    as [without_any_png]. *)
Lemma find_icon_file_resolve listing name :
  find_icon_file (Some listing) name =
  spec_find_icon_file without_any_png (glob_png listing) name.
Proof.
  unfold find_icon_file, spec_find_icon_file, spec_generated_or_partial.
  unfold try_mapping. rewrite try_patterns_find, try_files_find.
  destruct (lookup (clean name) specific_mappings) as [f|]; [|reflexivity].
  destruct (mem f (glob_png listing)); reflexivity.
Qed.

Lemma find_icon_file_no_directory name :
  find_icon_file None name = PLACEHOLDER.
Proof. reflexivity. Qed.

Lemma find_ext {A} (f g : A -> bool) l :
  (forall x, In x l -> f x = g x) -> find f l = find g l.
Proof.
  induction l as [|x l IH]; simpl; intros H; [reflexivity|].
  rewrite <- (H x (or_introl eq_refl)).
  destruct (f x); [reflexivity|]. apply IH. intros; apply H; now right.
Qed.

(** Where the two readings of the base name agree on every candidate, the
    code resolves as the specification says. *)
Lemma find_icon_file_resolve_extension listing name :
  (forall f, In f (glob_png listing) ->
             without_any_png f = without_extension f) ->
  find_icon_file (Some listing) name =
  spec_find_icon_file without_extension (glob_png listing) name.
Proof.
  intros Hbase. rewrite find_icon_file_resolve.
  unfold spec_find_icon_file, spec_generated_or_partial.
  rewrite (find_ext
             (significant_part_in without_any_png (split "_" (clean name)))
             (significant_part_in without_extension (split "_" (clean name)))).
  - reflexivity.
  - intros f Hf. unfold significant_part_in. now rewrite (Hbase f Hf).
Qed.

Lemma length_append a b :
  String.length (a ++ b) = String.length a + String.length b.
Proof. induction a as [|x a IH]; simpl; [reflexivity | now rewrite IH]. Qed.

Lemma prefix_app_long p : forall x y,
  String.length p <= String.length x -> prefix p (x ++ y) = prefix p x.
Proof.
  induction p as [|a p IH]; intros x y Hlen.
  - now rewrite !prefix_empty.
  - destruct x as [|c x]; [simpl in Hlen; lia|].
    cbn [append]. rewrite !prefix_cons. f_equal. apply IH.
    simpl in Hlen. lia.
Qed.

Lemma substring_append b : forall x, substring 0 (String.length b) (b ++ x) = b.
Proof.
  induction b as [|c b IH]; intros x; simpl.
  - destruct x; reflexivity.
  - now rewrite IH.
Qed.

Lemma without_extension_png b : without_extension (b ++ ".png") = b.
Proof.
  unfold without_extension. rewrite length_append. simpl String.length.
  replace (String.length b + 4 - 4) with (String.length b) by lia.
  apply substring_append.
Qed.

(** A file name in which [.png] occurs only as the extension loses just the
    extension on line 66. *)
Lemma without_any_png_plain b :
  contains ".png" (b ++ ".pn") = false ->
  without_any_png (b ++ ".png") = b.
Proof.
  unfold without_any_png, replace.
  induction b as [|c b IH]; intros H; [reflexivity|].
  cbn [append] in *. rewrite contains_cons in H.
  apply orb_false_iff in H as [Hp Hrest].
  assert (Hhere : prefix ".png" (String c (b ++ ".png")) = false).
  { change (String c (b ++ ".png")) with (String c b ++ ".png").
    replace (String c b ++ ".png") with ((String c b ++ ".pn") ++ "g")
      by (now rewrite append_assoc).
    rewrite prefix_app_long; [exact Hp|].
    rewrite length_append. simpl. lia. }
  cbn [replace_from]. rewrite Hhere. now rewrite (IH Hrest).
Qed.

(** On candidates in which [.png] occurs only as the extension the code
    resolves as the specification says. *)
Lemma find_icon_file_plain_names listing name :
  (forall f, In f (glob_png listing) ->
             exists b, f = b ++ ".png"
                       /\ contains ".png" (b ++ ".pn") = false) ->
  find_icon_file (Some listing) name =
  spec_find_icon_file without_extension (glob_png listing) name.
Proof.
  intros Hplain. apply find_icon_file_resolve_extension.
  intros f Hf. destruct (Hplain f Hf) as (b & -> & Hb).
  now rewrite without_any_png_plain, without_extension_png.
Qed.

(** The two scenarios of the specification: the table entry for "Fashion
    Phenomenon", and "Master Chef" with no matching file. *)
Example fashion_phenomenon_icon :
  find_icon_file (Some ["w_lifetime_stylist.png"]) "Fashion Phenomenon"
  = "w_lifetime_stylist.png".
Proof. reflexivity. Qed.

Example master_chef_placeholder :
  find_icon_file (Some ["w_lifetime_stylist.png"; "notes.txt"]) "Master Chef"
  = PLACEHOLDER.
Proof. reflexivity. Qed.

(** C6: with the one candidate [mas.pngter.png] and the name [Master] the
    code returns the candidate, because taking every [.png] out of it leaves
    [master]; the file name without its extension is [mas.pngter], which
    contains no part of the name, so the specification's resolver answers
    with the sentinel. *)
Theorem find_icon_file_inner_png :
  find_icon_file (Some ["mas.pngter.png"]) "Master" = "mas.pngter.png"
  /\ spec_find_icon_file without_extension (glob_png ["mas.pngter.png"]) "Master"
     = PLACEHOLDER
  /\ glob_png ["mas.pngter.png"] = ["mas.pngter.png"]
  /\ without_any_png "mas.pngter.png" = "master"
  /\ without_extension "mas.pngter.png" = "mas.pngter"
  /\ contains "master" "mas.pngter.png" = false.
Proof. vm_compute. repeat split. Qed.

End IconFacts.

(* ------------------------------------------------------------------ *)
(** ** More on the saves: activation, creation, listing *)

Module SavesMore.
Import Store App Dashboard StoreSpec MoreSpec Samples.
Open Scope Z_scope.

Lemma set_active_save_cases id db :
  set_active_save id db =
  (Returned tt,
   with_saves db (map (fun s => set_is_active (save_id s =? id) s) (saves db))
     (saves_seq db)).
Proof.
  unfold set_active_save, on_file. simpl. unfold with_saves. simpl.
  do 2 f_equal. rewrite map_map. apply map_ext.
  intros s. simpl. destruct (save_id s =? id); reflexivity.
Qed.

Lemma filter_active_map id l :
  filter is_active (map (fun s => set_is_active (save_id s =? id) s) l) =
  map (set_is_active true) (filter (fun s => save_id s =? id) l).
Proof.
  induction l as [|s l IH]; simpl; [reflexivity|].
  destruct (save_id s =? id) eqn:E; simpl; now rewrite IH.
Qed.

Lemma only_one_with_id (s : save) l :
  NoDup (map save_id l) -> In s l ->
  filter (fun x => save_id x =? save_id s) l = [s].
Proof.
  induction l as [|y l IH]; simpl; intros Hnd Hin; [contradiction|].
  inversion Hnd as [|? ? Hnotin Hnd']; subst.
  destruct Hin as [->|Hin].
  - rewrite Z.eqb_refl. f_equal. apply SavesFacts.filter_all_false.
    intros x Hx. apply Z.eqb_neq. intros E. apply Hnotin.
    apply in_map_iff. exists x. split; [exact E | exact Hx].
  - destruct (Z.eqb_spec (save_id y) (save_id s)) as [E|E].
    + elim Hnotin. apply in_map_iff. exists s. split; [now symmetry|exact Hin].
    + now apply IH.
Qed.

(** X1: on a table with unique ids, activating a save that is in the table
    makes it the one [get_active_save] returns. *)
Theorem activate_then_get_active :
  forall (db : database) (s : save),
    NoDup (map save_id (saves db)) ->
    In s (saves db) ->
    get_active_save (snd (set_active_save (save_id s) db)) = Some (shown s).
Proof.
  intros db s Hnd Hin. rewrite set_active_save_cases. unfold get_active_save.
  simpl. rewrite filter_active_map, (only_one_with_id s _ Hnd Hin).
  reflexivity.
Qed.

Lemma activate_then_get_active_witness :
  get_active_save (snd (set_active_save 2 alpha_db)) =
  Some (2, "Alpha", Some "first").
Proof.
  apply (activate_then_get_active alpha_db
           (mk_save 2 "Alpha" (Some "first") "2024-02-02" false)).
  - simpl. repeat constructor; simpl; intuition discriminate.
  - simpl. right. left. reflexivity.
Defined.

(** X2: activating an id no save has leaves no save active: every flag is
    cleared, and [get_active_save] returns nothing. *)
Theorem activate_unknown_id :
  forall (db : database) (id : Z),
    ~ In id (map save_id (saves db)) ->
    get_active_save (snd (set_active_save id db)) = None
    /\ (forall s, In s (saves (snd (set_active_save id db))) ->
                  is_active s = false)
    /\ map save_id (saves (snd (set_active_save id db))) =
       map save_id (saves db).
Proof.
  intros db id Hid. rewrite set_active_save_cases. simpl.
  assert (Hnone : filter (fun s => save_id s =? id) (saves db) = []).
  { apply SavesFacts.filter_all_false. intros x Hx. apply Z.eqb_neq.
    intros E. apply Hid. apply in_map_iff. eauto. }
  split; [|split].
  - unfold get_active_save. simpl. now rewrite filter_active_map, Hnone.
  - intros s Hs. apply in_map_iff in Hs as (s0 & <- & Hs0). simpl.
    apply Z.eqb_neq. intros E. apply Hid. apply in_map_iff. eauto.
  - rewrite map_map. now apply map_ext.
Qed.

Lemma activate_unknown_id_witness :
  get_active_save (snd (set_active_save 9 alpha_db)) = None
  /\ (forall s, In s (saves (snd (set_active_save 9 alpha_db))) ->
                is_active s = false)
  /\ map save_id (saves (snd (set_active_save 9 alpha_db))) =
     map save_id (saves alpha_db).
Proof.
  apply (activate_unknown_id alpha_db 9).
  simpl. intuition discriminate.
Defined.

(** X3: of two activations in a row only the second counts; in particular
    activating the same save twice is the same as activating it once. *)
Theorem activation_last_wins :
  forall (db : database) (a b : Z),
    set_active_save b (snd (set_active_save a db)) = set_active_save b db.
Proof.
  intros db a b. rewrite !set_active_save_cases. simpl.
  unfold with_saves. simpl. do 2 f_equal. rewrite map_map.
  apply map_ext. intros s. reflexivity.
Qed.

(** X4: an activation changes nothing but the flags: the saves keep their
    ids, names, descriptions and dates, in their order, and the wishes and
    the progress rows are as they were. *)
Theorem activation_changes_flags_only :
  forall (db : database) (id : Z),
    let db' := snd (set_active_save id db) in
    map (fun s => (save_id s, save_name s, save_description s,
                   save_created_date s)) (saves db') =
    map (fun s => (save_id s, save_name s, save_description s,
                   save_created_date s)) (saves db)
    /\ saves_seq db' = saves_seq db
    /\ lifetime_wishes db' = lifetime_wishes db
    /\ lifetime_wishes_progress db' = lifetime_wishes_progress db.
Proof.
  intros db id db'. subst db'. rewrite set_active_save_cases. simpl.
  repeat split. rewrite map_map. now apply map_ext.
Qed.

(** X5: creating a save, whether it succeeds or raises, leaves the active save
    as it was, and the saves that were there keep their place and values. *)
Theorem create_save_keeps_active :
  forall (w : world) (name description : string) (db : database),
    let db' := snd (create_new_save w name description db) in
    get_active_save db' = get_active_save db
    /\ firstn (length (saves db)) (saves db') = saves db
    /\ lifetime_wishes db' = lifetime_wishes db
    /\ lifetime_wishes_progress db' = lifetime_wishes_progress db.
Proof.
  intros w name description db db'. subst db'.
  rewrite SavesFacts.create_new_save_cases.
  destruct (existsb (named name) (saves db)); simpl.
  - repeat split. apply firstn_all.
  - repeat split.
    + unfold get_active_save. simpl. rewrite filter_app. simpl.
      now rewrite app_nil_r.
    + rewrite firstn_app, Nat.sub_diag, firstn_all. simpl.
      apply app_nil_r.
Qed.

(** X6: after any requests on a newly created database the saves have
    pairwise distinct ids and pairwise distinct names, and the progress table
    has at most one row for a (save, wish) pair. *)
Theorem served_database_keeps_schema :
  forall (w0 : world) (rs : list (world * Session.request)),
    let db := Session.serve_all rs (create_database w0) in
    NoDup (map save_id (saves db))
    /\ NoDup (map save_name (saves db))
    /\ NoDup (map pair_of (lifetime_wishes_progress db)).
Proof.
  intros w0 rs db.
  destruct (SavesFacts.consistent_serve_all rs _
              (SavesFacts.consistent_create_database w0)) as [I N P _].
  repeat split; assumption.
Qed.

End SavesMore.

(* ------------------------------------------------------------------ *)
(** ** The listing of the saves and the overview *)

Module DashboardFacts.
Import Store App Dashboard StoreSpec MoreSpec Samples.
Open Scope Z_scope.

Lemma active_then_name_le_total a b :
  active_then_name_le a b = true \/ active_then_name_le b a = true.
Proof.
  unfold active_then_name_le.
  destruct (is_active a), (is_active b); auto; apply String.leb_total.
Qed.

Lemma active_then_name_le_spec a b :
  active_then_name_le a b = true -> listed_before a b.
Proof.
  unfold active_then_name_le, listed_before.
  destruct (is_active a), (is_active b); intros H; auto; discriminate.
Qed.

Lemma listed_before_trans a b c :
  listed_before a b -> listed_before b c -> listed_before a c.
Proof.
  unfold listed_before.
  intros [[A1 A2]|[A1 A2]] [[B1 B2]|[B1 B2]]; try congruence.
  - left. split; congruence.
  - left. split; congruence.
  - right. split; [congruence|].
    eapply QueryFacts.string_leb_trans; eassumption.
Qed.

Lemma at_most_one_unique {A} (f : A -> bool) l a b :
  (length (filter f l) <= 1)%nat ->
  In a l -> In b l -> f a = true -> f b = true -> a = b.
Proof.
  intros Hlen Ha Hb Fa Fb.
  assert (Ia : In a (filter f l)) by (apply filter_In; auto).
  assert (Ib : In b (filter f l)) by (apply filter_In; auto).
  revert Hlen Ia Ib.
  destruct (filter f l) as [|x [|y rest]]; simpl; intros Hlen Ia Ib.
  - contradiction.
  - destruct Ia as [<-|[]], Ib as [<-|[]]. reflexivity.
  - lia.
Qed.

(** X7: [get_saves] lists every save of the table once, active saves first
    and then by name; and where at most one save is active, the save
    [get_active_save] returns heads the list. *)
Theorem get_saves_listing :
  forall db : database,
    Permutation (get_saves db) (saves db)
    /\ StronglySorted listed_before (get_saves db)
    /\ ((active_count db <= 1)%nat ->
        forall a, get_active_save db = Some a ->
                  exists s rest,
                    get_saves db = s :: rest
                    /\ shown s = a /\ is_active s = true).
Proof.
  intros db.
  assert (Hperm : Permutation (get_saves db) (saves db)).
  { apply Permutation_sym, QueryFacts.order_by_perm. }
  assert (Hsorted : StronglySorted listed_before (get_saves db)).
  { apply Sorted_StronglySorted.
    - intros a b c. apply listed_before_trans.
    - unfold get_saves.
      pose proof (QueryFacts.order_by_sorted active_then_name_le
                    active_then_name_le_total (saves db)) as Hs.
      induction Hs as [|x l Hs IH Hhd]; constructor; [exact IH|].
      destruct Hhd; constructor. now apply active_then_name_le_spec. }
  split; [exact Hperm|]. split; [exact Hsorted|].
  intros Hone a Hget. unfold get_active_save in Hget.
  destruct (filter is_active (saves db)) as [|s0 rest0] eqn:Ef;
    [discriminate|].
  injection Hget as <-.
  assert (Hs0 : In s0 (saves db) /\ is_active s0 = true).
  { apply filter_In. rewrite Ef. now left. }
  destruct Hs0 as [Hin0 Hact0].
  destruct (get_saves db) as [|h rest] eqn:Eg.
  - apply Permutation_nil in Hperm. rewrite Hperm in Hin0. destruct Hin0.
  - assert (Hh : In h (saves db)).
    { apply (Permutation_in _ Hperm). now left. }
    assert (Hact : is_active h = true).
    { destruct (is_active h) eqn:Eh; [reflexivity|].
      assert (Hin : In s0 (h :: rest)).
      { apply (Permutation_in _ (Permutation_sym Hperm)). exact Hin0. }
      destruct Hin as [<-|Hin]; [congruence|].
      inversion Hsorted as [|? ? _ Hall]; subst.
      rewrite Forall_forall in Hall.
      destruct (Hall s0 Hin) as [[A _]|[A _]]; congruence. }
    exists h, rest. split; [reflexivity|]. split; [|exact Hact].
    change (shown h = shown s0). f_equal.
    apply (at_most_one_unique is_active (saves db)); auto.
Qed.

Lemma get_saves_listing_witness :
  exists s rest,
    get_saves (snd (set_active_save 2 alpha_db)) = s :: rest
    /\ shown s = (2, "Alpha", Some "first") /\ is_active s = true.
Proof.
  destruct (get_saves_listing (snd (set_active_save 2 alpha_db)))
    as (_ & _ & H).
  apply H.
  - unfold active_count. simpl. lia.
  - reflexivity.
Defined.

Lemma filter_split_length {A} (f : A -> bool) l :
  (length (filter f l) + length (filter (fun x => negb (f x)) l) = length l)%nat.
Proof.
  induction l as [|x l IH]; simpl; [reflexivity|].
  destruct (f x); simpl; lia.
Qed.

(** X8: under any source filter the two status filters split the wishes
    between them: "Completed" and "Not Completed" together show as many rows
    as no status filter, and the completed count of the overview is the size
    of "Completed" under the source filter "All". *)
Theorem status_filters_split :
  forall (source_filter : string) (df : list wish_with_progress),
    (length (apply_filters source_filter "Completed" df)
     + length (apply_filters source_filter "Not Completed" df)
     = length (apply_filters source_filter "All" df))%nat
    /\ completed_wishes df = length (apply_filters "All" "Completed" df)
    /\ (completed_wishes df <= total_wishes df)%nat.
Proof.
  intros source_filter df. unfold apply_filters. simpl.
  split; [|split].
  - destruct (negb (String.eqb source_filter "All")); apply filter_split_length.
  - reflexivity.
  - unfold completed_wishes, total_wishes.
    pose proof (filter_split_length r_completed df). lia.
Qed.

(** X9: the listing of a save is empty exactly when the wishes table is
    empty, whatever the progress table holds. *)
Theorem listing_empty_iff_no_wishes :
  forall (save_id : Z) (db : database),
    get_lifetime_wishes_with_progress save_id db = []
    <-> lifetime_wishes db = [].
Proof.
  intros save_id db. unfold get_lifetime_wishes_with_progress. split.
  - intros H. apply map_eq_nil in H.
    pose proof (QueryFacts.order_by_perm source_name_le
                  (left_join save_id db)) as Hp.
    rewrite H in Hp. apply Permutation_sym, Permutation_nil in Hp.
    unfold left_join in Hp.
    destruct (lifetime_wishes db) as [|lw l]; [reflexivity|].
    cbn [flat_map] in Hp.
    destruct (filter (join_on save_id lw) (lifetime_wishes_progress db));
      discriminate Hp.
  - intros H. unfold left_join. now rewrite H.
Qed.

Lemma listing_empty_iff_no_wishes_witness :
  get_lifetime_wishes_with_progress 1 noted_db = [].
Proof.
  apply (proj2 (listing_empty_iff_no_wishes 1 noted_db)).
  reflexivity.
Defined.

End DashboardFacts.

(* ------------------------------------------------------------------ *)
(** ** More on [update_lifetime_wish_progress]: what it leaves alone and how
    the listing reads it back *)

Module ProgressMore.
Import Store App StoreSpec MoreSpec Samples.
Open Scope Z_scope.

(** X10: an upsert leaves the rows of every other (save, wish) pair, the
    saves and the wishes as they were. *)
Theorem upsert_leaves_the_rest :
  forall (w : world) (s g : Z) (c : bool) (notes : option string)
         (db : database) (s' g' : Z),
    (s', g') <> (s, g) ->
    let db' := snd (update_lifetime_wish_progress w s g c notes db) in
    rows_of s' g' db' = rows_of s' g' db
    /\ saves db' = saves db
    /\ lifetime_wishes db' = lifetime_wishes db.
Proof.
  intros w s g c notes db s' g' Hne db'. subst db'.
  split; [now apply ProgressFacts.rows_of_update_other | split; reflexivity].
Qed.

Lemma upsert_leaves_the_rest_witness :
  let db' := snd (update_lifetime_wish_progress no_file_world 1 8 true None
                    noted_db) in
  rows_of 1 7 db' = rows_of 1 7 noted_db
  /\ saves db' = saves noted_db
  /\ lifetime_wishes db' = lifetime_wishes noted_db.
Proof.
  apply (upsert_leaves_the_rest no_file_world 1 8 true None noted_db 1 7).
  discriminate.
Defined.

Lemma left_join_joined save_id db :
  left_join save_id db =
  flat_map (joined save_id (lifetime_wishes_progress db)) (lifetime_wishes db).
Proof. reflexivity. Qed.

Lemma join_on_same_pair s lw p :
  join_on s lw p = same_pair s (lw_id lw) p.
Proof.
  unfold join_on, same_pair.
  rewrite (Z.eqb_sym (lw_id lw)). apply andb_comm.
Qed.

Lemma filter_filter_keep {A} (f g : A -> bool) l :
  (forall x, f x = true -> g x = true) ->
  filter f (filter g l) = filter f l.
Proof.
  intros H. induction l as [|x l IH]; simpl; [reflexivity|].
  destruct (g x) eqn:G; simpl.
  - now rewrite IH.
  - destruct (f x) eqn:F; [|exact IH]. apply H in F. congruence.
Qed.

Lemma joined_fst s progress lw j :
  In j (joined s progress lw) -> fst j = lw.
Proof.
  unfold joined. destruct (filter (join_on s lw) progress) as [|m ms] eqn:E.
  - intros [<-|[]]. reflexivity.
  - rewrite in_map_iff. intros (p & <- & _). reflexivity.
Qed.

Lemma map_id_on {A} (f : A -> A) l :
  (forall x, In x l -> f x = x) -> map f l = l.
Proof.
  induction l as [|x l IH]; simpl; intros H; [reflexivity|].
  rewrite H by now left. f_equal. apply IH. intros; apply H; now right.
Qed.

(** The join rows of one wish, before and after the upsert of ([s], [g]). *)
Lemma joined_after_upsert s g wr progress lw :
  NoDup (map pair_of progress) ->
  pair_of wr = (s, g) ->
  joined s (filter (fun p => negb (same_pair s g p)) progress ++ [wr]) lw =
  map (rejoin g wr) (joined s progress lw).
Proof.
  intros Hnd Hwr. unfold joined at 1. rewrite filter_app.
  assert (Hsg : same_pair s g wr = true).
  { unfold pair_of in Hwr. injection Hwr as E1 E2. unfold same_pair.
    now rewrite E1, E2, !Z.eqb_refl. }
  destruct (Z.eqb_spec (lw_id lw) g) as [E|E].
  - assert (Hext : forall p, join_on s lw p = same_pair s g p).
    { intros p. rewrite join_on_same_pair. now rewrite E. }
    rewrite (filter_ext _ _ Hext), ProgressFacts.filter_none.
    simpl. rewrite Hext, Hsg. simpl.
    pose proof (QueryFacts.at_most_one_match s lw progress Hnd) as Hlen.
    unfold joined.
    destruct (filter (join_on s lw) progress) as [|m [|m' ms]];
      simpl in *; try lia;
      unfold rejoin; simpl; apply Z.eqb_eq in E; now rewrite E.
  - assert (Hoff : join_on s lw wr = false).
    { rewrite join_on_same_pair. unfold same_pair. unfold pair_of in Hwr.
      injection Hwr as E1 E2. rewrite E2.
      apply andb_false_iff. right. apply Z.eqb_neq. congruence. }
    simpl. rewrite Hoff, app_nil_r.
    rewrite filter_filter_keep.
    + fold (joined s progress lw). symmetry. apply map_id_on.
      intros j Hj. unfold rejoin. rewrite (joined_fst _ _ _ _ Hj).
      apply Z.eqb_neq in E. now rewrite E.
    + intros p Hp. rewrite join_on_same_pair in Hp.
      apply negb_true_iff. unfold same_pair in *.
      apply andb_true_iff in Hp as [Hp1 Hp2]. apply Z.eqb_eq in Hp2.
      apply andb_false_iff. right. apply Z.eqb_neq. congruence.
Qed.

(** The join rows of a wish for another save are not affected. *)
Lemma joined_other_save s g wr progress lw s' :
  pair_of wr = (s, g) -> s' <> s ->
  joined s' (filter (fun p => negb (same_pair s g p)) progress ++ [wr]) lw =
  joined s' progress lw.
Proof.
  intros Hwr Hne. unfold joined. rewrite filter_app.
  assert (Hoff : join_on s' lw wr = false).
  { unfold join_on. unfold pair_of in Hwr. injection Hwr as E1 E2.
    rewrite E1. apply andb_false_iff. right. apply Z.eqb_neq. congruence. }
  simpl. rewrite Hoff, app_nil_r, filter_filter_keep; [reflexivity|].
  intros p Hp. unfold join_on in Hp. apply andb_true_iff in Hp as [_ Hp].
  apply Z.eqb_eq in Hp. apply negb_true_iff. unfold same_pair.
  apply andb_false_iff. left. apply Z.eqb_neq. congruence.
Qed.

Lemma flat_map_map_each {A B} (f : B -> B) (F : A -> list B) l :
  flat_map (fun x => map f (F x)) l = map f (flat_map F l).
Proof.
  induction l as [|x l IH]; simpl; [reflexivity|].
  now rewrite map_app, IH.
Qed.

Lemma insert_by_map {A} (le : A -> A -> bool) (f : A -> A) x l :
  (forall a b, le (f a) (f b) = le a b) ->
  insert_by le (f x) (map f l) = map f (insert_by le x l).
Proof.
  intros H. induction l as [|y l IH]; simpl; [reflexivity|].
  rewrite H. destruct (le x y); simpl; [reflexivity | now rewrite IH].
Qed.

Lemma order_by_map {A} (le : A -> A -> bool) (f : A -> A) l :
  (forall a b, le (f a) (f b) = le a b) ->
  order_by le (map f l) = map f (order_by le l).
Proof.
  intros H. induction l as [|x l IH]; simpl; [reflexivity|].
  fold (order_by le (map f l)). fold (order_by le l).
  now rewrite IH, insert_by_map.
Qed.

Lemma rejoin_keeps_order g wr a b :
  source_name_le (rejoin g wr a) (rejoin g wr b) = source_name_le a b.
Proof.
  unfold source_name_le, rejoin.
  destruct (lw_id (fst a) =? g), (lw_id (fst b) =? g); reflexivity.
Qed.

Lemma select_rejoin g wr j :
  select_columns (rejoin g wr j) =
  set_progress g (lwp_completed wr) (lwp_completed_date wr) (lwp_notes wr)
    (select_columns j).
Proof.
  destruct j as [lw o]. unfold rejoin, set_progress. simpl.
  destruct (lw_id lw =? g); reflexivity.
Qed.

(** X11: on a progress table with at most one row per pair, an upsert for
    ([s], [g]) changes the listing of save [s] in the row of wish [g] only,
    which then shows the written completed flag, date and notes; the listing
    of every other save is as it was. *)
Theorem listing_after_upsert :
  forall (w : world) (s g : Z) (c : bool) (notes : option string)
         (db : database),
    NoDup (map pair_of (lifetime_wishes_progress db)) ->
    let db' := snd (update_lifetime_wish_progress w s g c notes db) in
    get_lifetime_wishes_with_progress s db' =
      map (set_progress g c (if c then Some (today w) else None)
             (Some match notes with
                   | Some n => n
                   | None => EmptyString
                   end))
          (get_lifetime_wishes_with_progress s db)
    /\ (forall s', s' <> s ->
          get_lifetime_wishes_with_progress s' db' =
          get_lifetime_wishes_with_progress s' db).
Proof.
  intros w s g c notes db Hnd db'. subst db'.
  unfold get_lifetime_wishes_with_progress.
  rewrite !left_join_joined.
  rewrite ProgressFacts.update_progress, ProgressFacts.update_lifetime_wishes.
  set (wr := written_row w db s g c notes).
  assert (Hwr : pair_of wr = (s, g)) by reflexivity.
  split.
  - rewrite (flat_map_ext _ _
               (fun lw => joined_after_upsert s g wr _ lw Hnd Hwr)).
    rewrite flat_map_map_each, order_by_map by apply rejoin_keeps_order.
    rewrite !map_map. apply map_ext. intros j. apply select_rejoin.
  - intros s' Hne. rewrite !left_join_joined.
    rewrite ProgressFacts.update_progress, ProgressFacts.update_lifetime_wishes.
    fold wr.
    now rewrite (flat_map_ext _ _
                   (fun lw => joined_other_save s g wr _ lw s' Hwr Hne)).
Qed.

Lemma listing_after_upsert_witness :
  let db' := snd (update_lifetime_wish_progress no_file_world 1 1 false
                    (Some "again") tracked_db) in
  get_lifetime_wishes_with_progress 1 db' =
    map (set_progress 1 false None (Some "again"))
        (get_lifetime_wishes_with_progress 1 tracked_db)
  /\ (forall s', s' <> 1 ->
        get_lifetime_wishes_with_progress s' db' =
        get_lifetime_wishes_with_progress s' tracked_db).
Proof.
  apply (listing_after_upsert no_file_world 1 1 false (Some "again")
           tracked_db).
  simpl. repeat constructor. simpl. tauto.
Defined.

End ProgressMore.

(* ------------------------------------------------------------------ *)
(** ** More on the goal loader: what it stores, what it reports, what a bad
    row does, and what a reload does to the progress that is shown *)

Module LoaderMore.
Import Store App Loader Dashboard StoreSpec MoreSpec Samples.
Open Scope Z_scope.

Lemma load_row_ok w row n c :
  well_formed row = true ->
  load_row w row n c =
  (Returned (counted (wish_of_row w (high_water c + 1) row) n),
   with_wish c (wish_of_row w (high_water c + 1) row)).
Proof.
  unfold well_formed. intros H.
  apply andb_true_iff in H as [H H3]. apply andb_true_iff in H as [H1 H2].
  apply LoaderFacts.has_text_item in H1 as [s1 E1], H2 as [s2 E2],
    H3 as [s3 E3].
  unfold load_row, bind. rewrite !LoaderFacts.getitem_item, E1. simpl.
  rewrite !LoaderFacts.getitem_item, E2. simpl.
  rewrite !LoaderFacts.getitem_item, E3. simpl.
  unfold counted, with_wish, wish_of_row, has_icon, text_of, high_water,
    next_id. simpl. rewrite E1, E2, E3. reflexivity.
Qed.

Lemma load_row_bad w row n c :
  well_formed row = false ->
  exists e, load_row w row n c = (Raised e, c).
Proof.
  unfold well_formed, has_text, load_row, bind. intros H.
  rewrite LoaderFacts.getitem_item.
  destruct (item row "Name") as [[s1|]|e1]; simpl; eauto.
  rewrite LoaderFacts.getitem_item.
  destruct (item row "Source") as [[s2|]|e2]; simpl; eauto.
  rewrite LoaderFacts.getitem_item.
  destruct (item row "Completion_Type") as [[s3|]|e3]; simpl; eauto.
  discriminate H.
Qed.

Lemma max_id_snoc ids x : max_id (ids ++ [x]) = Z.max (max_id ids) x.
Proof.
  induction ids as [|y ids IH]; simpl; [lia|]. rewrite IH. lia.
Qed.

Lemma high_water_with_wish c w row :
  high_water (with_wish c (wish_of_row w (high_water c + 1) row)) =
  high_water c + 1.
Proof.
  unfold high_water, with_wish, with_lifetime_wishes.
  cbn [txn lifetime_wishes lifetime_wishes_seq].
  rewrite map_app. cbn [map]. rewrite max_id_snoc.
  cbn [lw_id wish_of_row]. lia.
Qed.

Lemma filter_has_icon_counted lw n :
  icon_count (counted lw n) =
  (icon_count n + length (filter has_icon [lw]))%nat
  /\ placeholder_count (counted lw n) =
     (placeholder_count n
      + length (filter (fun x => negb (has_icon x)) [lw]))%nat.
Proof. simpl. destruct (has_icon lw); simpl; split; lia. Qed.

(** The loop over rows that are all well-formed. *)
Lemma load_rows_ok w rows : forall n c,
  forallb well_formed rows = true ->
  exists n' c',
    load_rows w rows n c = (Returned n', c')
    /\ lifetime_wishes (txn c') =
       (lifetime_wishes (txn c)
        ++ wishes_of_rows w (high_water c + 1) rows)%list
    /\ loaded_count n' = (loaded_count n + length rows)%nat
    /\ icon_count n' =
       (icon_count n
        + length (filter has_icon
                    (wishes_of_rows w (high_water c + 1) rows)))%nat
    /\ placeholder_count n' =
       (placeholder_count n
        + length (filter (fun x => negb (has_icon x))
                    (wishes_of_rows w (high_water c + 1) rows)))%nat.
Proof.
  induction rows as [|row rows IH]; intros n c H.
  - exists n, c. simpl. rewrite app_nil_r. repeat split; lia.
  - simpl in H. apply andb_true_iff in H as [Hr Hrs].
    set (lw := wish_of_row w (high_water c + 1) row).
    destruct (IH (counted lw n) (with_wish c lw) Hrs)
      as (n' & c' & E & Hw & Hl & Hi & Hp).
    subst lw. rewrite high_water_with_wish in Hw, Hi, Hp.
    exists n', c'. cbn [load_rows]. unfold bind.
    rewrite (load_row_ok w row n c Hr), E.
    split; [reflexivity|]. cbn [wishes_of_rows].
    split; [|split; [|split]].
    + rewrite Hw. simpl. now rewrite <- app_assoc.
    + rewrite Hl. simpl. lia.
    + rewrite Hi. cbn [filter]. unfold counted. cbn [icon_count].
      destruct (has_icon _); simpl; lia.
    + rewrite Hp. cbn [filter]. unfold counted. cbn [placeholder_count].
      destruct (has_icon _); simpl; lia.
Qed.

(** The loop over rows of which one is not well-formed. *)
Lemma load_rows_bad w rows : forall n c,
  forallb well_formed rows = false ->
  exists e c', load_rows w rows n c = (Raised e, c') /\ file c' = file c.
Proof.
  induction rows as [|row rows IH]; intros n c H; [discriminate H|].
  simpl in H. cbn [load_rows]. unfold bind.
  destruct (well_formed row) eqn:Hr.
  - simpl in H. rewrite (load_row_ok w row n c Hr).
    destruct (IH (counted (wish_of_row w (high_water c + 1) row) n)
                 (with_wish c (wish_of_row w (high_water c + 1) row)) H)
      as (e & c' & E & F).
    exists e, c'. split; [exact E | exact F].
  - destruct (load_row_bad w row n c Hr) as [e E]. rewrite E.
    exists e, c. split; reflexivity.
Qed.

Lemma high_water_after_delete db :
  high_water (after_delete db) = Z.max (lifetime_wishes_seq db) 0.
Proof. reflexivity. Qed.

(** X12: a goal file in which some row lacks one of the three columns makes
    the loader raise, and the database file is then exactly as it was: the
    old wishes are still there and none of the rows before the bad one has
    been stored. *)
Theorem bad_row_stores_nothing :
  forall (w : world) (db : database) (rows : list csv_row),
    csv_file w = Some rows ->
    forallb well_formed rows = false ->
    exists e, load_lifetime_wishes w db = (Raised e, db).
Proof.
  intros w db rows Hf Hbad. rewrite LoaderFacts.load_cases, Hf.
  destruct (load_rows_bad w rows no_counts (after_delete db) Hbad)
    as (e & c' & E & F).
  rewrite E. exists e. now rewrite F.
Qed.

Lemma bad_row_stores_nothing_witness :
  exists e, load_lifetime_wishes short_row_world tracked_db
            = (Raised e, tracked_db).
Proof.
  apply (bad_row_stores_nothing short_row_world tracked_db
           [ [ ("Name", Some " Gold Digger ");
               ("Source", Some "Base Game");
               ("Completion_Type", Some "Checkmark") ];
             short_row ]).
  - reflexivity.
  - reflexivity.
Defined.

(** X13: from a goal file whose rows all have the three columns the loader
    leaves in the table exactly the wishes of the file, in file order, with
    the fields stripped, the icon [find_icon_file] finds for the stripped
    name, and consecutive ids that start one above the largest id the table
    has ever held. *)
Theorem loaded_wishes_follow_the_file :
  forall (w : world) (db : database) (rows : list csv_row),
    csv_file w = Some rows ->
    forallb well_formed rows = true ->
    lifetime_wishes (snd (load_lifetime_wishes w db)) =
    wishes_of_rows w (Z.max (lifetime_wishes_seq db) 0 + 1) rows.
Proof.
  intros w db rows Hf Hok. rewrite LoaderFacts.load_cases, Hf.
  destruct (load_rows_ok w rows no_counts (after_delete db) Hok)
    as (n' & c' & E & Hw & _).
  rewrite E. simpl. rewrite Hw, high_water_after_delete. reflexivity.
Qed.

Lemma loaded_wishes_follow_the_file_witness :
  lifetime_wishes (snd (load_lifetime_wishes two_row_world tracked_db)) =
  [ mk_lifetime_wish 2 "Gold Digger" "Base Game" "Checkmark"
      (Some "gold_digger.png") None "2024-02-02";
    mk_lifetime_wish 3 "Master Chef" "Base Game" "Checkmark"
      (Some "PLACEHOLDER") None "2024-02-02" ].
Proof.
  rewrite (loaded_wishes_follow_the_file two_row_world tracked_db
             [ [ ("Name", Some " Gold Digger ");
                 ("Source", Some "Base Game");
                 ("Completion_Type", Some "Checkmark") ];
               [ ("Name", Some "Master Chef");
                 ("Source", Some "Base Game");
                 ("Completion_Type", Some "Checkmark") ] ]).
  - reflexivity.
  - reflexivity.
  - reflexivity.
Defined.

(** X14: when the loader returns its counts, they describe the table it
    leaves: the loaded count is the number of wishes, the icon count the
    number of wishes with an icon other than the placeholder, the placeholder
    count the number of the others, and the two add up to the first. *)
Theorem reported_counts_match_table :
  forall (w : world) (db : database) (n : counts),
    fst (load_lifetime_wishes w db) = Returned (Some n) ->
    let table := lifetime_wishes (snd (load_lifetime_wishes w db)) in
    loaded_count n = length table
    /\ icon_count n = length (filter has_icon table)
    /\ placeholder_count n =
       length (filter (fun lw => negb (has_icon lw)) table)
    /\ (icon_count n + placeholder_count n = loaded_count n)%nat.
Proof.
  intros w db n. rewrite LoaderFacts.load_cases.
  destruct (csv_file w) as [rows|]; [|discriminate].
  destruct (forallb well_formed rows) eqn:Hok.
  - destruct (load_rows_ok w rows no_counts (after_delete db) Hok)
      as (n' & c' & E & Hw & Hl & Hi & Hp).
    rewrite E. simpl. intros [= <-]. rewrite Hw. simpl in *.
    assert (Hlen : forall i l, length (wishes_of_rows w i l) = length l).
    { intros i l. revert i.
      induction l as [|r l IH]; intros i; simpl; [reflexivity|].
      now rewrite IH. }
    pose proof (DashboardFacts.filter_split_length has_icon
                  (wishes_of_rows w (high_water (after_delete db) + 1) rows))
      as Hsplit.
    rewrite Hlen in *. repeat split; lia.
  - destruct (load_rows_bad w rows no_counts (after_delete db) Hok)
      as (e & c' & E & _).
    rewrite E. discriminate.
Qed.

Lemma reported_counts_match_table_witness :
  let table :=
    lifetime_wishes (snd (load_lifetime_wishes two_row_world tracked_db)) in
  (2 = length table
   /\ 1 = length (filter has_icon table)
   /\ 1 = length (filter (fun lw => negb (has_icon lw)) table)
   /\ 1 + 1 = 2)%nat.
Proof.
  apply (reported_counts_match_table two_row_world tracked_db
           (mk_counts 2 1 1)).
  reflexivity.
Defined.

Lemma wishes_of_rows_ids w rows : forall i lw,
  In lw (wishes_of_rows w i rows) -> i <= lw_id lw.
Proof.
  induction rows as [|row rows IH]; intros i lw; simpl; [contradiction|].
  intros [<-|H]; [simpl; lia|]. apply IH in H. lia.
Qed.

(** After a reload no wish carries an id a progress row of before names. *)
Lemma reloaded_ids_are_new w db rows :
  csv_file w = Some rows ->
  forallb well_formed rows = true ->
  (forall p, In p (lifetime_wishes_progress db) ->
             lwp_lifetime_wish_id p <= Z.max (lifetime_wishes_seq db) 0) ->
  forall lw p,
    In lw (lifetime_wishes (snd (load_lifetime_wishes w db))) ->
    In p (lifetime_wishes_progress (snd (load_lifetime_wishes w db))) ->
    lwp_lifetime_wish_id p <> lw_id lw.
Proof.
  intros Hf Hok Hbound lw p Hlw Hp.
  rewrite LoaderFacts.load_progress in Hp.
  rewrite LoaderFacts.load_cases, Hf in Hlw.
  destruct (load_rows_ok w rows no_counts (after_delete db) Hok)
    as (n' & c' & E & Hw & _).
  rewrite E in Hlw. simpl in Hlw. rewrite Hw in Hlw. simpl in Hlw.
  apply wishes_of_rows_ids in Hlw. apply Hbound in Hp.
  rewrite high_water_after_delete in Hlw. lia.
Qed.

(** X15: after a reload from a well-formed file, every wish of the listing of
    every save shows completed = false with no date and no notes, provided the
    progress rows name wishes the table has held: the progress rows are still
    stored, but the new wishes have ids of their own. *)
Theorem reload_resets_shown_progress :
  forall (w : world) (db : database) (rows : list csv_row),
    csv_file w = Some rows ->
    forallb well_formed rows = true ->
    (forall p, In p (lifetime_wishes_progress db) ->
               lwp_lifetime_wish_id p <= Z.max (lifetime_wishes_seq db) 0) ->
    let db' := snd (load_lifetime_wishes w db) in
    lifetime_wishes_progress db' = lifetime_wishes_progress db
    /\ (forall save_id r,
          In r (get_lifetime_wishes_with_progress save_id db') ->
          r_completed r = false
          /\ r_completed_date r = None
          /\ r_notes r = None).
Proof.
  intros w db rows Hf Hok Hbound db'. subst db'.
  split; [apply LoaderFacts.load_progress|].
  intros save_id r Hr. unfold get_lifetime_wishes_with_progress in Hr.
  apply in_map_iff in Hr as ([lw [p|]] & <- & Hj); [|repeat split].
  apply (Permutation_in _
           (Permutation_sym (QueryFacts.order_by_perm _ _))) in Hj.
  assert (Hlw : In lw (lifetime_wishes (snd (load_lifetime_wishes w db)))).
  { unfold left_join in Hj. apply in_flat_map in Hj as (lw' & Hlw' & Hin).
    apply ProgressMore.joined_fst in Hin. simpl in Hin. now subst lw'. }
  apply QueryFacts.left_join_match in Hj.
  unfold rows_of in Hj. apply filter_In in Hj as [Hp Hsame].
  unfold same_pair in Hsame. apply andb_true_iff in Hsame as [_ Hsame].
  apply Z.eqb_eq in Hsame.
  elim (reloaded_ids_are_new w db rows Hf Hok Hbound lw p Hlw Hp Hsame).
Qed.

Lemma reload_resets_shown_progress_witness :
  let db' := snd (load_lifetime_wishes one_row_world tracked_db) in
  lifetime_wishes_progress db' = lifetime_wishes_progress tracked_db
  /\ (forall save_id r,
        In r (get_lifetime_wishes_with_progress save_id db') ->
        r_completed r = false
        /\ r_completed_date r = None
        /\ r_notes r = None).
Proof.
  apply (reload_resets_shown_progress one_row_world tracked_db
           [ [ ("Name", Some "Master Chef");
               ("Source", Some "Base Game");
               ("Completion_Type", Some "Checkmark") ] ]).
  - reflexivity.
  - reflexivity.
  - simpl. intros p [<-|[]]. simpl. lia.
Defined.

Lemma flat_map_nil {A B} (F : A -> list B) l :
  (forall x, In x l -> F x = []) -> flat_map F l = [].
Proof.
  induction l as [|x l IH]; simpl; intros H; [reflexivity|].
  rewrite (H x (or_introl eq_refl)). simpl. apply IH.
  intros; apply H; now right.
Qed.

(** X16: under the same conditions the progress sheet of the export is empty
    after the reload, although the progress table is not emptied. *)
Theorem reload_empties_progress_sheet :
  forall (w : world) (db : database) (rows : list csv_row),
    csv_file w = Some rows ->
    forallb well_formed rows = true ->
    (forall p, In p (lifetime_wishes_progress db) ->
               lwp_lifetime_wish_id p <= Z.max (lifetime_wishes_seq db) 0) ->
    let db' := snd (load_lifetime_wishes w db) in
    progress_report db' = []
    /\ length (lifetime_wishes_progress db') =
       length (lifetime_wishes_progress db).
Proof.
  intros w db rows Hf Hok Hbound db'. subst db'.
  split; [|now rewrite LoaderFacts.load_progress].
  unfold progress_report. apply flat_map_nil. intros p Hp.
  apply flat_map_nil. intros s _. 
  rewrite SavesFacts.filter_all_false; [reflexivity|].
  intros lw Hlw. apply Z.eqb_neq.
  apply (reloaded_ids_are_new w db rows Hf Hok Hbound lw p Hlw Hp).
Qed.

Lemma reload_empties_progress_sheet_witness :
  let db' := snd (load_lifetime_wishes one_row_world tracked_db) in
  progress_report db' = []
  /\ length (lifetime_wishes_progress db') =
     length (lifetime_wishes_progress tracked_db).
Proof.
  apply (reload_empties_progress_sheet one_row_world tracked_db
           [ [ ("Name", Some "Master Chef");
               ("Source", Some "Base Game");
               ("Completion_Type", Some "Checkmark") ] ]).
  - reflexivity.
  - reflexivity.
  - simpl. intros p [<-|[]]. simpl. lia.
Defined.

End LoaderMore.

(* ------------------------------------------------------------------ *)
(** ** The progress sheet of the export *)

Module ExportFacts.
Import Store App Dashboard StoreSpec MoreSpec Samples.
Open Scope Z_scope.

Lemma count_with_key {A} (key : A -> Z) (k : Z) (l : list A) :
  NoDup (map key l) ->
  length (filter (fun x => k =? key x) l) =
  if mem_Z k (map key l) then 1%nat else 0%nat.
Proof.
  unfold mem_Z.
  induction l as [|x l IH]; simpl; intros Hnd; [reflexivity|].
  inversion Hnd as [|? ? Hnotin Hnd']; subst.
  destruct (Z.eqb_spec k (key x)) as [E|E]; simpl.
  - rewrite SavesFacts.filter_all_false; [reflexivity|].
    intros y Hy. apply Z.eqb_neq. intros Ey. apply Hnotin.
    apply in_map_iff. exists y. split; [congruence | exact Hy].
  - now apply IH.
Qed.

Lemma flat_map_length_const {A B} (F : A -> list B) (b : nat) l :
  (forall x, length (F x) = b) ->
  length (flat_map F l) = (length l * b)%nat.
Proof.
  intros H. induction l as [|x l IH]; simpl; [reflexivity|].
  now rewrite length_app, H, IH.
Qed.

(** X17: with unique save ids and unique wish ids, the progress sheet of the
    export has one row for each progress row whose save and wish both exist,
    and none for the others. *)
Theorem progress_sheet_rows :
  forall db : database,
    NoDup (map save_id (saves db)) ->
    NoDup (map lw_id (lifetime_wishes db)) ->
    length (progress_report db) =
    length (filter (has_both db) (lifetime_wishes_progress db)).
Proof.
  intros db Hs Hw. unfold progress_report.
  induction (lifetime_wishes_progress db) as [|p l IH]; [reflexivity|].
  cbn [flat_map filter]. rewrite length_app, IH.
  rewrite (flat_map_length_const _
             (length (filter (fun lw => lwp_lifetime_wish_id p =? lw_id lw)
                        (lifetime_wishes db)))).
  - rewrite (count_with_key save_id _ _ Hs), (count_with_key lw_id _ _ Hw).
    unfold has_both.
    destruct (mem_Z (lwp_save_id p) (map save_id (saves db))),
      (mem_Z (lwp_lifetime_wish_id p) (map lw_id (lifetime_wishes db)));
      simpl; lia.
  - intros s. rewrite (flat_map_length_const _ 1%nat); [lia|reflexivity].
Qed.

Lemma progress_sheet_rows_witness :
  length (progress_report tracked_db) =
  length (filter (has_both tracked_db) (lifetime_wishes_progress tracked_db)).
Proof.
  apply (progress_sheet_rows tracked_db).
  - simpl. repeat constructor. simpl. tauto.
  - simpl. repeat constructor. simpl. tauto.
Defined.

End ExportFacts.

(* ------------------------------------------------------------------ *)
(** ** More on the icon resolver *)

Module IconsMore.
Import PyStr Icons IconSpec MoreIconSpec.

Lemma mem_In x l : mem x l = true -> In x l.
Proof.
  unfold mem. rewrite existsb_exists. intros (y & Hy & E).
  apply String.eqb_eq in E. now subst.
Qed.

(** X18: [find_icon_file] answers with the placeholder or with a name the
    directory lists, and such a name ends in [.png] and does not start with a
    dot; without a directory, or with one that lists no such name, the answer
    is the placeholder. *)
Theorem find_icon_file_answers :
  forall (dir : option (list string)) (name : string),
    (find_icon_file dir name = PLACEHOLDER
     \/ exists listing,
          dir = Some listing
          /\ In (find_icon_file dir name) listing
          /\ endswith (find_icon_file dir name) ".png" = true
          /\ prefix "." (find_icon_file dir name) = false)
    /\ (dir = None -> find_icon_file dir name = PLACEHOLDER)
    /\ (forall listing, dir = Some listing -> glob_png listing = [] ->
                        find_icon_file dir name = PLACEHOLDER).
Proof.
  intros dir name. split; [|split].
  - destruct dir as [listing|]; [|now left].
    assert (Hglob : forall f, In f (glob_png listing) ->
                    In f listing /\ endswith f ".png" = true
                    /\ prefix "." f = false).
    { intros f Hf. unfold glob_png in Hf. apply filter_In in Hf as [Hin Hc].
      apply andb_true_iff in Hc as [He Hd]. apply negb_true_iff in Hd.
      auto. }
    assert (Hcand : find_icon_file (Some listing) name = PLACEHOLDER
                    \/ In (find_icon_file (Some listing) name)
                          (glob_png listing)).
    { rewrite IconFacts.find_icon_file_resolve.
      unfold spec_find_icon_file, spec_generated_or_partial.
      set (cands := glob_png listing).
      assert (Hrest :
        forall n,
          match find (fun p => mem p cands)
                  [ n ++ ".png"; "w_lifetime_" ++ n ++ ".png";
                    "w_" ++ n ++ ".png" ] with
          | Some p => p
          | None =>
              match find (significant_part_in without_any_png (split "_" n))
                         cands with
              | Some f => f
              | None => PLACEHOLDER
              end
          end = PLACEHOLDER
          \/ In (match find (fun p => mem p cands)
                         [ n ++ ".png"; "w_lifetime_" ++ n ++ ".png";
                           "w_" ++ n ++ ".png" ] with
                 | Some p => p
                 | None =>
                     match find (significant_part_in without_any_png
                                   (split "_" n)) cands with
                     | Some f => f
                     | None => PLACEHOLDER
                     end
                 end) cands).
      { intros n.
        destruct (find (fun p => mem p cands) _) as [p|] eqn:Ep.
        - right. apply find_some in Ep as [_ Ep]. now apply mem_In.
        - destruct (find (significant_part_in _ _) cands) as [f|] eqn:Ef.
          + right. now apply find_some in Ef as [Ef _].
          + now left. }
      destruct (lookup (clean name) specific_mappings) as [f|];
        [|apply Hrest].
      destruct (mem f cands) eqn:Em; [|apply Hrest].
      right. now apply mem_In. }
    destruct Hcand as [Hp|Hin]; [now left|].
    right. exists listing. split; [reflexivity|]. now apply Hglob.
  - intros ->. reflexivity.
  - intros listing -> Hnone. rewrite IconFacts.find_icon_file_resolve, Hnone.
    unfold spec_find_icon_file, spec_generated_or_partial.
    destruct (lookup (clean name) specific_mappings); reflexivity.
Qed.

Lemma find_icon_file_answers_witness :
  find_icon_file (Some [ "notes.txt"; ".hidden.png" ]) "Master Chef"
  = PLACEHOLDER.
Proof.
  destruct (find_icon_file_answers (Some [ "notes.txt"; ".hidden.png" ])
              "Master Chef") as (_ & _ & H).
  apply (H [ "notes.txt"; ".hidden.png" ]); reflexivity.
Defined.

Lemma lower_char_idempotent c : lower_char (lower_char c) = lower_char c.
Proof. destruct c as [[] [] [] [] [] [] [] []]; reflexivity. Qed.

Lemma lower_idempotent s : lower (lower s) = lower s.
Proof.
  induction s as [|c s IH]; simpl; [reflexivity|].
  now rewrite lower_char_idempotent, IH.
Qed.

(** X19: the case of the letters of a name does not matter to the resolver:
    a name and its lowercase form normalize alike and get the same icon. *)
Theorem find_icon_file_ignores_case :
  forall (dir : option (list string)) (name : string),
    clean (lower name) = clean name
    /\ find_icon_file dir (lower name) = find_icon_file dir name.
Proof.
  intros dir name.
  assert (H : clean (lower name) = clean name).
  { unfold clean, pre_clean. now rewrite lower_idempotent. }
  split; [exact H|]. unfold find_icon_file. now rewrite H.
Qed.

Lemma in_append c a b :
  In c (list_ascii_of_string (a ++ b)) ->
  In c (list_ascii_of_string a) \/ In c (list_ascii_of_string b).
Proof.
  induction a as [|x a IH]; simpl; [now right|].
  intros [->|H]; [now left; left|]. destruct (IH H); auto.
Qed.

Lemma clean_char_kept_out c x :
  In x (list_ascii_of_string (clean_char c)) -> kept_out x = false.
Proof.
  destruct c as [[] [] [] [] [] [] [] []]; simpl;
    intros H; repeat (destruct H as [<-|H]; [reflexivity|]); destruct H.
Qed.

Lemma concat_map_kept_out s x :
  In x (list_ascii_of_string (concat_map clean_char s)) ->
  kept_out x = false.
Proof.
  induction s as [|c s IH]; simpl; [contradiction|].
  intros H. apply in_append in H as [H|H];
    [now apply clean_char_kept_out in H | now apply IH].
Qed.

Lemma halve_pairs_chars s : forall x,
  In x (list_ascii_of_string (halve_pairs s)) ->
  In x (list_ascii_of_string s).
Proof.
  induction s as [|c|c d s IH1 IH2] using IconFacts.string_ind2; intros x.
  - auto.
  - auto.
  - rewrite IconFacts.halve_pairs_cons2.
    destruct (Ascii.eqb c "_" && Ascii.eqb d "_") eqn:E.
    + apply andb_true_iff in E as [Ec _]. apply Ascii.eqb_eq in Ec. subst c.
      cbn [list_ascii_of_string In]. intros [H|H]; [now left|].
      right. right. now apply IH1.
    + cbn [list_ascii_of_string]. intros [H|H]; [now left|].
      right. now apply IH2.
Qed.

(** X20: a normalized name never holds an uppercase letter, an apostrophe, a
    double quote, a comma, a colon, a hyphen or a space. *)
Theorem clean_name_alphabet :
  forall (name : string) (c : ascii),
    In c (list_ascii_of_string (clean name)) ->
    kept_out c = false.
Proof.
  intros name c H. unfold clean in H.
  rewrite IconFacts.replace_pairs_halve in H. apply halve_pairs_chars in H.
  rewrite IconFacts.pre_clean_concat_map in H.
  now apply concat_map_kept_out in H.
Qed.

Lemma clean_name_alphabet_witness :
  kept_out "j"%char = false.
Proof.
  apply (clean_name_alphabet "Jack - Jill" "j"%char).
  vm_compute. left. reflexivity.
Defined.

(** X21: a file name in which [.png] occurs only as the extension loses
    exactly the extension on line 66, and on a directory of such names
    [find_icon_file] resolves by the priority order with the base name read
    as the file name without its extension. *)
Theorem plain_icon_names :
  (forall b : string,
      contains ".png" (b ++ ".pn") = false ->
      replace ".png" EmptyString (b ++ ".png") = b)
  /\ (forall (listing : list string) (name : string),
        (forall f, In f (glob_png listing) ->
                   exists b, f = b ++ ".png"
                             /\ contains ".png" (b ++ ".pn") = false) ->
        find_icon_file (Some listing) name =
        spec_find_icon_file without_extension (glob_png listing) name).
Proof.
  split.
  - intros b Hb. apply (IconFacts.without_any_png_plain b Hb).
  - intros listing name Hplain.
    apply IconFacts.find_icon_file_resolve_extension.
    intros f Hf. destruct (Hplain f Hf) as (b & -> & Hb).
    rewrite IconFacts.without_extension_png.
    apply (IconFacts.without_any_png_plain b Hb).
Qed.

Lemma plain_icon_names_witness :
  replace ".png" EmptyString ("w_master" ++ ".png") = "w_master"
  /\ find_icon_file (Some [ "w_master.png"; "chef_hat.png"; "w_zoo.png" ])
       "Master Chef" =
     spec_find_icon_file without_extension
       (glob_png [ "w_master.png"; "chef_hat.png"; "w_zoo.png" ])
       "Master Chef".
Proof.
  destruct plain_icon_names as [H1 H2]. split.
  - apply (H1 "w_master"). reflexivity.
  - apply (H2 [ "w_master.png"; "chef_hat.png"; "w_zoo.png" ] "Master Chef").
    intros f Hf. vm_compute in Hf.
    destruct Hf as [<-|[<-|[<-|[]]]].
    + exists "w_master". split; reflexivity.
    + exists "chef_hat". split; reflexivity.
    + exists "w_zoo". split; reflexivity.
Defined.

End IconsMore.

(* ------------------------------------------------------------------ *)
(** ** Running [create_database()] on a file *)

Module SchemaFacts.
Import Store App StoreSpec MoreSpec Samples.
Import Schema SchemaSpec.
Open Scope Z_scope.

Lemma existsb_filter_out (x t : string) l :
  existsb (String.eqb x) (filter (fun y => negb (String.eqb y t)) l) =
  existsb (String.eqb x) l && negb (String.eqb x t).
Proof.
  induction l as [|y l IH]; simpl; [reflexivity|].
  destruct (String.eqb_spec y t) as [->|Hyt]; simpl.
  - rewrite IH. destruct (String.eqb_spec x t) as [->|Hxt]; simpl.
    + now rewrite !andb_false_r.
    + now rewrite andb_true_r.
  - rewrite IH. destruct (String.eqb_spec x y) as [->|Hxy]; simpl.
    + apply String.eqb_neq in Hyt. now rewrite Hyt.
    + reflexivity.
Qed.

(** The tables a file has after one DROP TABLE IF EXISTS. *)
Lemma drop_has_table t f x :
  has_table x (snd (drop_table_if_exists t f)) =
  has_table x f && negb (String.eqb x t).
Proof.
  unfold drop_table_if_exists. destruct (has_table t f) eqn:E; simpl.
  - unfold has_table. simpl. apply existsb_filter_out.
  - destruct (String.eqb_spec x t) as [->|Hxt]; simpl.
    + now rewrite E.
    + now rewrite andb_true_r.
Qed.

Lemma drop_done t f : fst (drop_table_if_exists t f) = Done tt.
Proof. unfold drop_table_if_exists. now destruct (has_table t f). Qed.

Lemma forget_saves t db :
  String.eqb t "saves" = false ->
  saves (forget t db) = saves db /\ saves_seq (forget t db) = saves_seq db.
Proof.
  intros H. unfold forget. rewrite H.
  destruct (String.eqb t "lifetime_wishes");
    [|destruct (String.eqb t "lifetime_wishes_progress")]; split; reflexivity.
Qed.

Lemma forget_lifetime_wishes t db :
  String.eqb t "lifetime_wishes" = false ->
  lifetime_wishes (forget t db) = lifetime_wishes db
  /\ lifetime_wishes_seq (forget t db) = lifetime_wishes_seq db.
Proof.
  intros H. unfold forget. rewrite H.
  destruct (String.eqb t "saves");
    [|destruct (String.eqb t "lifetime_wishes_progress")]; split; reflexivity.
Qed.

Lemma forget_progress t db :
  String.eqb t "lifetime_wishes_progress" = false ->
  lifetime_wishes_progress (forget t db) = lifetime_wishes_progress db
  /\ lifetime_wishes_progress_seq (forget t db) =
     lifetime_wishes_progress_seq db.
Proof.
  intros H. unfold forget. rewrite H.
  destruct (String.eqb t "saves");
    [|destruct (String.eqb t "lifetime_wishes")]; split; reflexivity.
Qed.

Lemma drop_rows t f :
  rows (snd (drop_table_if_exists t f)) =
  if has_table t f then forget t (rows f) else rows f.
Proof. unfold drop_table_if_exists. now destruct (has_table t f). Qed.

Lemma drop_absent_is_empty t f :
  absent_is_empty f -> absent_is_empty (snd (drop_table_if_exists t f)).
Proof.
  intros (A1 & A2 & A3). unfold absent_is_empty.
  rewrite !drop_has_table, drop_rows.
  destruct (has_table t f) eqn:Et.
  - split; [|split]; intros H; apply andb_false_iff in H as [H|H].
    + destruct (A1 H) as [R1 R2].
      destruct (String.eqb_spec t "saves") as [->|Hne];
        [split; reflexivity|].
      apply String.eqb_neq in Hne.
      destruct (forget_saves t (rows f) Hne) as [-> ->]. now split.
    + apply negb_false_iff, String.eqb_eq in H. subst t.
      split; reflexivity.
    + destruct (A2 H) as [R1 R2].
      destruct (String.eqb_spec t "lifetime_wishes") as [->|Hne];
        [split; reflexivity|].
      apply String.eqb_neq in Hne.
      destruct (forget_lifetime_wishes t (rows f) Hne) as [-> ->]. now split.
    + apply negb_false_iff, String.eqb_eq in H. subst t.
      split; reflexivity.
    + destruct (A3 H) as [R1 R2].
      destruct (String.eqb_spec t "lifetime_wishes_progress") as [->|Hne];
        [split; reflexivity|].
      apply String.eqb_neq in Hne.
      destruct (forget_progress t (rows f) Hne) as [-> ->]. now split.
    + apply negb_false_iff, String.eqb_eq in H. subst t.
      split; reflexivity.
  - split; [|split]; intros H; apply andb_false_iff in H as [H|H]; auto.
    + apply negb_false_iff, String.eqb_eq in H. subst t. auto.
    + apply negb_false_iff, String.eqb_eq in H. subst t. auto.
    + apply negb_false_iff, String.eqb_eq in H. subst t. auto.
Qed.

Lemma drop_indexes_on_tables t f :
  indexes_on_tables f -> indexes_on_tables (snd (drop_table_if_exists t f)).
Proof.
  intros B i Hi. rewrite drop_has_table.
  unfold drop_table_if_exists in Hi. destruct (has_table t f) eqn:Et.
  - simpl in Hi. apply filter_In in Hi as [Hi Hne].
    now rewrite (B i Hi), Hne.
  - simpl in Hi. rewrite (B i Hi). simpl.
    destruct (String.eqb_spec (snd i) t) as [E|E]; [|reflexivity].
    rewrite <- E, (B i Hi) in Et. discriminate.
Qed.

Lemma drop_tables_spec ts : forall f,
  absent_is_empty f ->
  fst (drop_tables ts f) = Done tt
  /\ absent_is_empty (snd (drop_tables ts f))
  /\ (indexes_on_tables f -> indexes_on_tables (snd (drop_tables ts f)))
  /\ (forall x, has_table x (snd (drop_tables ts f)) =
                has_table x f && negb (existsb (String.eqb x) ts))
  /\ (existsb (String.eqb "lifetime_wishes_progress") ts = false ->
      lifetime_wishes_progress (rows (snd (drop_tables ts f))) =
      lifetime_wishes_progress (rows f)
      /\ lifetime_wishes_progress_seq (rows (snd (drop_tables ts f))) =
         lifetime_wishes_progress_seq (rows f)).
Proof.
  induction ts as [|t ts IH]; intros f A.
  - simpl. split; [reflexivity|]. split; [exact A|]. split; [auto|].
    split; [intros x; now rewrite andb_true_r | intros _; split; reflexivity].
  - cbn [drop_tables]. unfold and_then.
    pose proof (drop_done t f) as Hd.
    pose proof (drop_absent_is_empty t f A) as A'.
    pose proof (drop_has_table t f) as Ht.
    pose proof (drop_rows t f) as Hr.
    pose proof (drop_indexes_on_tables t f) as Hi.
    destruct (drop_table_if_exists t f) as [r f1]. simpl in *. subst r.
    destruct (IH f1 A') as (I1 & I2 & I3 & I4 & I5).
    split; [exact I1|]. split; [exact I2|]. split; [auto|]. split.
    + intros x. rewrite I4, Ht. cbn [existsb]. rewrite negb_orb.
      now rewrite andb_assoc.
    + intros Hp. cbn [existsb] in Hp. apply orb_false_iff in Hp as [Hp1 Hp2].
      destruct (I5 Hp2) as [-> ->]. rewrite Hr.
      destruct (has_table t f); [|now split].
      apply forget_progress. now rewrite String.eqb_sym.
Qed.

Lemma no_table_no_names l :
  (forall x, existsb (String.eqb x) l = false) -> l = [].
Proof.
  destruct l as [|y l]; [reflexivity|]. intros H. specialize (H y).
  simpl in H. now rewrite String.eqb_refl in H.
Qed.

Lemma database_eta db :
  db = {| saves := saves db; saves_seq := saves_seq db;
          lifetime_wishes := lifetime_wishes db;
          lifetime_wishes_seq := lifetime_wishes_seq db;
          lifetime_wishes_progress := lifetime_wishes_progress db;
          lifetime_wishes_progress_seq := lifetime_wishes_progress_seq db |}.
Proof. now destruct db. Qed.

(** X22: on a file that has no table beyond those the script drops (a new
    file, or one with the tables of the older layout), [create_database()]
    runs through and leaves the nine tables, the five indexes and, as the only
    rows, the default save, active, under id 1. *)
Theorem create_database_on_clean_file :
  forall (w : world) (f : db_file),
    absent_is_empty f ->
    indexes_on_tables f ->
    (forall t, In t (tables f) -> In t tables_to_drop) ->
    Schema.create_database w f =
    (Done tt,
     {| tables := created_tables;
        indexes := created_indexes;
        rows := Store.create_database w |}).
Proof.
  intros w f A B Hsub.
  destruct (drop_tables_spec tables_to_drop f A) as (D1 & D2 & D3 & D4 & _).
  specialize (D3 B).
  assert (Hnone : forall x,
            has_table x (snd (drop_tables tables_to_drop f)) = false).
  { intros x. rewrite D4. destruct (has_table x f) eqn:E; [|reflexivity].
    unfold has_table in E. apply existsb_exists in E as (y & Hy & Exy).
    apply String.eqb_eq in Exy. subst y. apply Hsub in Hy.
    cbn [andb]. apply negb_false_iff. apply existsb_exists.
    exists x. split; [exact Hy | apply String.eqb_refl]. }
  unfold Schema.create_database. unfold and_then at 1.
  destruct (drop_tables tables_to_drop f) as [r f1]. simpl in *. subst r.
  assert (Ht : tables f1 = []) by (apply no_table_no_names, Hnone).
  assert (Hi : indexes f1 = []).
  { destruct (indexes f1) as [|i l] eqn:Ei; [reflexivity|].
    specialize (D3 i). rewrite Ei in D3.
    rewrite Hnone in D3. discriminate D3. now left. }
  destruct D2 as (A1 & A2 & A3).
  destruct (A1 (Hnone _)) as [R1 R2], (A2 (Hnone _)) as [R3 R4],
    (A3 (Hnone _)) as [R5 R6].
  destruct f1 as [ts ix db]. simpl in *. subst ts ix.
  rewrite (database_eta db), R1, R2, R3, R4, R5, R6. reflexivity.
Qed.

Lemma create_database_on_clean_file_witness :
  Schema.create_database no_file_world new_file =
  (Done tt,
   {| tables := created_tables;
      indexes := created_indexes;
      rows := Store.create_database no_file_world |}).
Proof.
  apply (create_database_on_clean_file no_file_world new_file).
  - repeat split.
  - intros i [].
  - intros t [].
Defined.

(** X23: on a file that already has the table [lifetime_wishes_progress] (any
    file the script has run through before) [create_database()] raises at its
    third CREATE TABLE; by then the saves and the wishes are gone, the
    progress rows are still there, and no save is active. *)
Theorem create_database_again :
  forall (w : world) (f : db_file),
    absent_is_empty f ->
    has_table "lifetime_wishes_progress" f = true ->
    exists f',
      Schema.create_database w f =
        (Failed (OperationalError
                   "table lifetime_wishes_progress already exists"), f')
      /\ saves (rows f') = []
      /\ lifetime_wishes (rows f') = []
      /\ lifetime_wishes_progress (rows f') =
         lifetime_wishes_progress (rows f)
      /\ get_active_save (rows f') = None.
Proof.
  intros w f A Hp.
  destruct (drop_tables_spec tables_to_drop f A) as (D1 & D2 & _ & D4 & D5).
  destruct (D5 eq_refl) as [P1 _].
  assert (Hs : has_table "saves" (snd (drop_tables tables_to_drop f)) = false).
  { rewrite D4. apply andb_false_iff. right. reflexivity. }
  assert (Hw : has_table "lifetime_wishes"
                 (snd (drop_tables tables_to_drop f)) = false).
  { rewrite D4. apply andb_false_iff. right. reflexivity. }
  assert (Hlp : has_table "lifetime_wishes_progress"
                  (snd (drop_tables tables_to_drop f)) = true).
  { rewrite D4, Hp. reflexivity. }
  destruct D2 as (A1 & A2 & _).
  destruct (A1 Hs) as [R1 _], (A2 Hw) as [R3 _].
  unfold Schema.create_database. unfold and_then at 1.
  revert D1 P1 Hs Hw Hlp R1 R3. clear A1 A2 D4 D5.
  destruct (drop_tables tables_to_drop f) as [r f1]. cbn [fst snd].
  intros -> P1 Hs Hw Hlp R1 R3.
  unfold has_table in Hs, Hw, Hlp.
  unfold and_then, create_table, has_table. cbn [tables].
  rewrite Hs. cbn [tables]. rewrite existsb_app, Hw. cbn [existsb orb].
  change (String.eqb "lifetime_wishes" "saves") with false.
  cbn [orb tables]. rewrite !existsb_app, Hlp. cbn [orb].
  eexists. split; [reflexivity|]. cbn [rows].
  repeat split; try assumption. unfold get_active_save. now rewrite R1.
Qed.

Lemma create_database_again_witness :
  exists f',
    Schema.create_database no_file_world
      (snd (Schema.create_database no_file_world new_file)) =
      (Failed (OperationalError
                 "table lifetime_wishes_progress already exists"), f')
    /\ saves (rows f') = []
    /\ lifetime_wishes (rows f') = []
    /\ lifetime_wishes_progress (rows f') =
       lifetime_wishes_progress
         (rows (snd (Schema.create_database no_file_world new_file)))
    /\ get_active_save (rows f') = None.
Proof.
  apply (create_database_again no_file_world
           (snd (Schema.create_database no_file_world new_file))).
  - unfold absent_is_empty.
    split; [|split]; intros H; vm_compute in H; discriminate H.
  - reflexivity.
Defined.

End SchemaFacts.

(* ------------------------------------------------------------------ *)
(** ** Requests and the active save; stored text; the priority order *)

Module SessionFacts.
Import Store App Loader StoreSpec MoreSpec Samples.
Open Scope Z_scope.

(** X24: of the requests only an activation changes which save is active:
    creating a save, writing progress and reloading the goals leave
    [get_active_save] as it was. *)
Theorem only_activation_changes_active :
  forall (w : world) (r : Session.request) (db : database),
    no_activation r = true ->
    get_active_save (Session.serve w r db) = get_active_save db.
Proof.
  intros w r db Hr. destruct r as [name description|id|s g c notes|];
    simpl in *.
  - rewrite SavesFacts.create_new_save_cases.
    destruct (existsb (named name) (saves db)); [reflexivity|].
    unfold get_active_save. simpl. rewrite filter_app. simpl.
    now rewrite app_nil_r.
  - discriminate Hr.
  - reflexivity.
  - unfold get_active_save. now rewrite LoaderFacts.load_saves.
Qed.

Lemma only_activation_changes_active_witness :
  get_active_save (Session.serve one_row_world Session.LoadGoals tracked_db)
  = get_active_save tracked_db.
Proof.
  apply (only_activation_changes_active one_row_world Session.LoadGoals
           tracked_db).
  reflexivity.
Defined.

Lemma lstrip_head s c rest :
  PyStr.lstrip s = String c rest -> PyStr.isspace c = false.
Proof.
  induction s as [|x s IH]; simpl; [discriminate|].
  destruct (PyStr.isspace x) eqn:E; [exact IH|].
  intros [= <- _]. exact E.
Qed.

Lemma rstrip_head x s :
  PyStr.isspace x = false ->
  exists rest, PyStr.rstrip (String x s) = String x rest.
Proof.
  intros Hx. simpl. destruct (PyStr.rstrip s).
  - rewrite Hx. eauto.
  - eauto.
Qed.

Lemma rstrip_last s c :
  last_char (PyStr.rstrip s) = Some c -> PyStr.isspace c = false.
Proof.
  induction s as [|x s IH]; simpl; [discriminate|].
  destruct (PyStr.rstrip s) as [|y r] eqn:E.
  - destruct (PyStr.isspace x) eqn:Ex; simpl; [discriminate|].
    intros [= <-]. exact Ex.
  - simpl. exact IH.
Qed.

Lemma strip_trimmed s : trimmed (PyStr.strip s).
Proof.
  unfold trimmed, PyStr.strip. split.
  - intros c rest H.
    destruct (PyStr.lstrip s) as [|x t] eqn:E; [discriminate H|].
    pose proof (lstrip_head s x t E) as Hx.
    destruct (rstrip_head x t Hx) as [rest' E'].
    rewrite E' in H. injection H as <- _. exact Hx.
  - intros c. apply rstrip_last.
Qed.

Lemma text_of_trimmed row key : trimmed (text_of row key).
Proof.
  unfold text_of. destruct (item row key) as [[s|]|e];
    try apply strip_trimmed; split; simpl; intros; discriminate.
Qed.

Lemma wishes_of_rows_trimmed w rows : forall i lw,
  In lw (wishes_of_rows w i rows) ->
  trimmed (lw_name lw) /\ trimmed (lw_source lw)
  /\ trimmed (lw_completion_type lw).
Proof.
  induction rows as [|row rows IH]; intros i lw; simpl; [contradiction|].
  intros [<-|H].
  - simpl. repeat split; apply text_of_trimmed.
  - apply (IH (i + 1)). exact H.
Qed.

(** X26: after a load from a well-formed file no stored name, source or
    completion type starts or ends with whitespace. *)
Theorem loaded_text_is_trimmed :
  forall (w : world) (db : database) (rows : list csv_row),
    csv_file w = Some rows ->
    forallb well_formed rows = true ->
    forall lw,
      In lw (lifetime_wishes (snd (load_lifetime_wishes w db))) ->
      trimmed (lw_name lw) /\ trimmed (lw_source lw)
      /\ trimmed (lw_completion_type lw).
Proof.
  intros w db rows Hf Hok lw Hlw.
  rewrite LoaderFacts.load_cases, Hf in Hlw.
  destruct (LoaderMore.load_rows_ok w rows no_counts (after_delete db) Hok)
    as (n' & c' & E & Hw & _).
  rewrite E in Hlw. simpl in Hlw. rewrite Hw in Hlw. simpl in Hlw.
  now apply wishes_of_rows_trimmed in Hlw.
Qed.

Lemma loaded_text_is_trimmed_witness :
  trimmed "Gold Digger" /\ trimmed "Base Game" /\ trimmed "Checkmark".
Proof.
  apply (loaded_text_is_trimmed two_row_world tracked_db
           [ [ ("Name", Some " Gold Digger ");
               ("Source", Some "Base Game");
               ("Completion_Type", Some "Checkmark") ];
             [ ("Name", Some "Master Chef");
               ("Source", Some "Base Game");
               ("Completion_Type", Some "Checkmark") ] ])
    with (lw := mk_lifetime_wish 2 "Gold Digger" "Base Game" "Checkmark"
                  (Some "gold_digger.png") None "2024-02-02").
  - reflexivity.
  - reflexivity.
  - vm_compute. left. reflexivity.
Defined.

End SessionFacts.

Module PriorityFacts.
Import PyStr Icons IconSpec.

(** X25: [find_icon_file] follows the priority order of the specification's
    algorithm (the table, the three generated names in order, the first
    candidate in listing order with a significant part in its base name, the
    placeholder), the base name of a candidate being its name with every
    [.png] taken out. *)
Theorem find_icon_file_priority :
  forall (listing : list string) (name : string),
    find_icon_file (Some listing) name =
    spec_find_icon_file without_any_png (glob_png listing) name.
Proof.
  intros listing name.
  unfold find_icon_file, spec_find_icon_file, spec_generated_or_partial.
  unfold try_mapping.
  rewrite IconFacts.try_patterns_find, IconFacts.try_files_find.
  destruct (lookup (clean name) specific_mappings) as [f|]; [|reflexivity].
  destruct (mem f (glob_png listing)); reflexivity.
Qed.

End PriorityFacts.
